(** * The repository conversion pipeline of routes/convert.js

    A shallow embedding of the conversion route: the file selector
    ([isRelevantFile], [getFilePriority]), the fetcher ([fetchFiles]), the
    batch planner, the conversion engine ([convertBatch]), the fallback
    generator ([createFallbackFiles]) and the request handler.  The
    repository holds two revisions of the route; the later one (priority
    tiers, fallback stubs) is embedded at top level, the planner and batch
    loop of the earlier one in [Module ConvertSimple].

    JavaScript strings are sequences of code units; here they are
    [String.string], which covers the code units U+0000..U+00FF.  Lengths and
    sizes are JavaScript numbers holding integers, embedded as [Z]. *)

From Stdlib Require Import String Ascii List ZArith Bool Lia Permutation.
From Stdlib Require Import DecimalString.
Import ListNotations.

Local Open Scope string_scope.
Local Open Scope list_scope.
Local Open Scope Z_scope.

(** ** Strings as the code uses them *)

Module Str.

Definition nl : string := String (ascii_of_nat 10) EmptyString.

(** [s.length] *)
Definition len (s : string) : Z := Z.of_nat (String.length s).

(** [String.prototype.toLowerCase] on one code unit of U+0000..U+00FF:
    A-Z and the Latin-1 capitals U+00C0..U+00DE (U+00D7 apart) move up by
    32; every other code unit is its own lower case. *)
Definition lower_char (c : ascii) : ascii :=
  let n := nat_of_ascii c in
  if ((65 <=? n) && (n <=? 90))%nat then ascii_of_nat (n + 32)
  else if ((192 <=? n) && (n <=? 222) && negb (n =? 215))%nat
       then ascii_of_nat (n + 32)
  else c.

Fixpoint toLowerCase (s : string) : string :=
  match s with
  | EmptyString => EmptyString
  | String c s' => String (lower_char c) (toLowerCase s')
  end.

(** The canonicalisation of a regular expression with the [i] flag and
    without the [u] flag, on a code unit below U+0100: only the ASCII
    letters are folded onto each other by the patterns of this file, which
    are ASCII. *)
Definition fold_char (c : ascii) : ascii :=
  let n := nat_of_ascii c in
  if ((65 <=? n) && (n <=? 90))%nat then ascii_of_nat (n + 32) else c.

Fixpoint foldCase (s : string) : string :=
  match s with
  | EmptyString => EmptyString
  | String c s' => String (fold_char c) (foldCase s')
  end.

(** [s.startsWith(p)] *)
Fixpoint startsWith (p s : string) : bool :=
  match p, s with
  | EmptyString, _ => true
  | String _ _, EmptyString => false
  | String a p', String b s' => Ascii.eqb a b && startsWith p' s'
  end.

(** [s.includes(sub)] *)
Fixpoint includes (sub s : string) : bool :=
  startsWith sub s
  || match s with
     | EmptyString => false
     | String _ s' => includes sub s'
     end.

(** [s.endsWith(suf)] *)
Fixpoint endsWith (suf s : string) : bool :=
  String.eqb suf s
  || match s with
     | EmptyString => false
     | String _ s' => endsWith suf s'
     end.

(** [s.split(sep)] for a separator of one code unit: never the empty
    list, [[""]] on the empty string. *)
Fixpoint split (sep : ascii) (s : string) : list string :=
  match s with
  | EmptyString => [EmptyString]
  | String c s' =>
      if Ascii.eqb c sep then EmptyString :: split sep s'
      else match split sep s' with
           | [] => [String c EmptyString]
           | h :: t => String c h :: t
           end
  end.

(** [parts.join(sep)] *)
Definition join (sep : string) (parts : list string) : string :=
  String.concat sep parts.

(** [parts.slice(0, -1)] *)
Definition dropLast {A : Type} (l : list A) : list A := removelast l.

(** [parts.pop()] read as a value: the last element, if any. *)
Definition lastOf (l : list string) : option string :=
  match l with
  | [] => None
  | _ => Some (last l EmptyString)
  end.

(** Interpolation of an integer in a template literal. *)
Definition ofZ (z : Z) : string := NilZero.string_of_int (Z.to_int z).

End Str.

(** ** Data model *)

(** The objects pushed by [fetchFiles]. *)
Record SourceFile : Type := mkSourceFile {
  path : string;
  content : string;
  size : Z;
  priority : Z
}.

(** [req.body.target] *)
Record TargetSpec : Type := mkTarget {
  language : string;
  framework : string;
  database : string
}.

(** Values of [JSON.parse], and the objects the handler puts in
    [converted].  A number [JNum m e] is the decimal literal [m * 10^e];
    the code reads nothing of a number but whether it is zero.  An object
    is the list of its members in source order; reading a property takes
    the last member of that name, as [JSON.parse] lets a later duplicate
    win. *)
#[warnings="-register-all"]
Inductive json : Type :=
| JNull
| JBool (b : bool)
| JNum (mantissa exponent : Z)
| JStr (s : string)
| JArr (items : list json)
| JObj (members : list (string * json)).

Module Json.

Fixpoint lookup (k : string) (members : list (string * json)) : option json :=
  match members with
  | [] => None
  | (k', v) :: rest =>
      match lookup k rest with
      | Some w => Some w
      | None => if String.eqb k k' then Some v else None
      end
  end.

(** [v.k] for a property name [k] that no prototype defines: [None] is
    [undefined]. *)
Definition prop (k : string) (v : json) : option json :=
  match v with
  | JObj members => lookup k members
  | _ => None
  end.

(** [typeof v.k === 'string'], giving the string. *)
Definition propString (k : string) (v : json) : option string :=
  match prop k v with
  | Some (JStr s) => Some s
  | _ => None
  end.

End Json.

(** ** Fallback generator *)

(** The [switch] on [target.language.toLowerCase()]. *)
Definition targetExt (target : TargetSpec) : string :=
  let l := Str.toLowerCase (language target) in
  if String.eqb l "python" then ".py"
  else if String.eqb l "javascript" || String.eqb l "node.js" then ".js"
  else if String.eqb l "typescript" then ".ts"
  else if String.eqb l "java" then ".java"
  else if String.eqb l "c#" || String.eqb l "csharp" then ".cs"
  else if String.eqb l "go" then ".go"
  else ".txt".




(** [pathParts.slice(0, -1).join('.') + targetExt] *)
Definition newPath (file : SourceFile) (target : TargetSpec) : string :=
  let pathParts := Str.split "." (path file) in
  Str.join "." (Str.dropLast pathParts) ++ targetExt target.

(** [file.content.substring(0, 1000)] *)
Definition excerpt (file : SourceFile) : string :=
  substring 0 1000 (content file).

Definition truncationMark (file : SourceFile) : string :=
  if Str.len (content file) >? 1000 then Str.nl ++ "... (truncated)"
  else "".

Definition fallbackHead (file : SourceFile) (target : TargetSpec) : string :=
  "// FALLBACK CONVERSION - NEEDS MANUAL REVIEW" ++ Str.nl ++
  "// Original file: " ++ path file ++ Str.nl ++
  "// Target: " ++ language target ++ " with " ++ framework target ++ Str.nl ++
  "// TODO: Convert the following original content to " ++ language target
  ++ Str.nl ++ Str.nl ++
  "/*" ++ Str.nl ++
  "Original content:" ++ Str.nl.

Definition fallbackTail (target : TargetSpec) : string :=
  Str.nl ++ "*/" ++ Str.nl ++ Str.nl ++
  "// Add your converted " ++ language target ++ " code here".

Definition fallbackContent (file : SourceFile) (target : TargetSpec) : string :=
  fallbackHead file target
  ++ excerpt file ++ truncationMark file
  ++ fallbackTail target.

Definition fallbackFile (file : SourceFile) (target : TargetSpec) : json :=
  JObj [ ("path", JStr (newPath file target));
         ("content", JStr (fallbackContent file target));
         ("originalPath", JStr (path file));
         ("isFallback", JBool true) ].

Definition createFallbackFiles (batch : list SourceFile) (target : TargetSpec)
  : list json :=
  map (fun file => fallbackFile file target) batch.

(** ** File selector *)

(** The [skipPatterns]: [/dir\//] is a search anywhere in the path,
    [/\.ext$/] a test of its end. *)
Definition skipped (p : string) : bool :=
  Str.includes "node_modules/" p
  || Str.includes ".git/" p
  || Str.endsWith ".DS_Store" p
  || Str.endsWith ".log" p
  || Str.includes ".cache/" p
  || Str.includes "dist/" p
  || Str.includes "build/" p
  || Str.includes "coverage/" p
  || Str.includes ".nyc_output/" p
  || Str.includes ".vscode/" p
  || Str.includes ".idea/" p.

Definition relevantExtensionList : list string :=
  [ "ts"; "tsx"; "js"; "jsx"; "py"; "cs"; "java"; "go"; "rs"; "php"; "rb";
    "kt"; "scala"; "sql"; "sh"; "yml"; "yaml"; "json"; "html"; "css"; "scss";
    "less"; "md"; "txt"; "env"; "gitignore"; "toml"; "xml"; "properties";
    "conf"; "ini"; "dockerfile"; "makefile"; "gradle"; "maven"; "pom";
    "package"; "lock"; "requirements"; "gemfile"; "cargo"; "composer" ].

(** [relevantExtensions.test(path)]: [/\.(ts|tsx|...)$/i] *)
Definition relevantExtensions (p : string) : bool :=
  existsb (fun ext => Str.endsWith ("." ++ ext) (Str.foldCase p))
          relevantExtensionList.

Definition importantFileList : list string :=
  [ "dockerfile"; "makefile"; "rakefile"; "gulpfile"; "gruntfile";
    "webpack.config"; "rollup.config"; "vite.config"; "tsconfig"; "jsconfig";
    "babel.config"; "eslint"; "prettier"; "package"; "requirements";
    "gemfile"; "cargo"; "composer" ].

(** [importantFiles.test(filename)]: [/^(dockerfile|...)$/i] *)
Definition importantFiles (filename : string) : bool :=
  existsb (String.eqb (Str.foldCase filename)) importantFileList.

(** [path.split('/').pop() || ''] *)
Definition fileNameOf (p : string) : string :=
  match Str.lastOf (Str.split "/" p) with
  | Some f => f
  | None => ""
  end.

Definition isRelevantFile (p : string) : bool :=
  if skipped p then false
  else
    let filename := fileNameOf p in
    relevantExtensions p || importantFiles filename.

(** In [getFilePriority] the variable called [filename] is the whole
    lower-cased path. *)
Definition getFilePriority (p : string) : Z :=
  let filename := Str.toLowerCase p in
  if Str.includes "package.json" filename
     || Str.includes "requirements.txt" filename
     || Str.includes "gemfile" filename
     || Str.includes "cargo.toml" filename
     || Str.includes "pom.xml" filename
     || Str.includes "composer.json" filename
  then 1
  else if Str.includes "main" filename
          || Str.includes "index" filename
          || Str.includes "app." filename
          || Str.includes "server." filename
  then 2
  else 3.

(** The priority rule in the words of the specification: the same tests,
    made on the file name (the last component of the path). *)
Definition priorityOfFileName (p : string) : Z :=
  getFilePriority (fileNameOf p).

(** ** Batch planner *)

Section Greedy.

Variable A : Type.
(** [file.content.length] *)
Variable contentLength : A -> Z.
Variable sizeLimit : Z.

(** The three variables of the loop. *)
Record planner : Type := mkPlanner {
  batches : list (list A);
  currentBatch : list A;
  currentSize : Z
}.

Definition plannerStart : planner := mkPlanner [] [] 0.

(** One turn of [for (const file of files)]. *)
Definition planFile (st : planner) (file : A) : planner :=
  let fileSize := contentLength file in
  let st' :=
    if (currentSize st + fileSize >? sizeLimit)
       && (Z.of_nat (length (currentBatch st)) >? 0)
    then mkPlanner (batches st ++ [currentBatch st]) [] 0
    else st in
  mkPlanner (batches st') (currentBatch st' ++ [file])
            (currentSize st' + fileSize).

(** The test after the loop. *)
Definition planClose (st : planner) : list (list A) :=
  if Z.of_nat (length (currentBatch st)) >? 0
  then batches st ++ [currentBatch st]
  else batches st.

Definition greedyBatches (files : list A) : list (list A) :=
  planClose (fold_left planFile files plannerStart).

(** Cumulative content size of a batch. *)
Definition batchSize (b : list A) : Z :=
  fold_right (fun f acc => contentLength f + acc) 0 b.

End Greedy.

Arguments batches {A} _.
Arguments currentBatch {A} _.
Arguments currentSize {A} _.
Arguments mkPlanner {A} _ _ _.
Arguments plannerStart {A}.
Arguments planFile {A} _ _ _ _.
Arguments planClose {A} _.
Arguments greedyBatches {A} _ _ _.
Arguments batchSize {A} _ _.

Definition contentLength (f : SourceFile) : Z := Str.len (content f).

Definition sizeLimit : Z := 80000.

(** [fileGroups], in the order [Object.entries] walks it. *)
Definition fileGroups (originals : list SourceFile) : list (list SourceFile) :=
  [ filter (fun f => Z.eqb (priority f) 1) originals;
    filter (fun f => Z.eqb (priority f) 2) originals;
    filter (fun f => Z.eqb (priority f) 3) originals ].

(** The nested loops push the files of the groups one after another into
    the same [currentBatch]. *)
Definition planBatches (originals : list SourceFile) : list (list SourceFile) :=
  greedyBatches contentLength sizeLimit (concat (fileGroups originals)).

(** ** Exceptions *)

(** A computation that returns or throws an [Error] with a message. *)
Inductive result (A : Type) : Type :=
| Ok (a : A)
| Throw (message : string).

Arguments Ok {A} _.
Arguments Throw {A} _.

(** ** Recovery of the JSON text of a reply *)

Definition isOpen (c : ascii) : bool := Ascii.eqb c "{".
Definition isClose (c : ascii) : bool := Ascii.eqb c "}".

(** The suffix of [s] that starts at its first [{]. *)
Fixpoint fromFirstOpen (s : string) : option string :=
  match s with
  | EmptyString => None
  | String c s' => if isOpen c then Some s else fromFirstOpen s'
  end.

(** The prefix of [s] that ends at its last [}]. *)
Fixpoint uptoLastClose (s : string) : option string :=
  match s with
  | EmptyString => None
  | String c s' =>
      match uptoLastClose s' with
      | Some t => Some (String c t)
      | None => if isClose c then Some (String c EmptyString) else None
      end
  end.

(** [aiResponse.match(/\{[\s\S]*\}/)], giving [jsonMatch[0]]: the match
    starts at the leftmost [{] that has a [}] after it, and the greedy
    [[\s\S]*] runs to the last [}] of the reply. *)
Definition jsonMatch (aiResponse : string) : option string :=
  match fromFirstOpen aiResponse with
  | Some (String c rest) =>
      match uptoLastClose rest with
      | Some t => Some (String c t)
      | None => None
      end
  | _ => None
  end.

(** The recovery pass in the words of the specification: the first
    balanced [{...}] substring.  [closeAt depth s] is the prefix of [s] up
    to the [}] that closes [depth] pending [{]. *)
Fixpoint closeAt (depth : nat) (s : string) : option string :=
  match s with
  | EmptyString => None
  | String c s' =>
      if isOpen c then option_map (String c) (closeAt (S depth) s')
      else if isClose c then
        match depth with
        | O => Some (String c EmptyString)
        | S d => option_map (String c) (closeAt d s')
        end
      else option_map (String c) (closeAt depth s')
  end.

Fixpoint firstBalanced (s : string) : option string :=
  match s with
  | EmptyString => None
  | String c s' =>
      if isOpen c then
        match closeAt 0 s' with
        | Some t => Some (String c t)
        | None => firstBalanced s'
        end
      else firstBalanced s'
  end.

(** Does a [}] occur in [s]; does a [{] occur in [s] with a [}] after
    it. *)
Fixpoint hasClose (s : string) : bool :=
  match s with
  | EmptyString => false
  | String c s' => isClose c || hasClose s'
  end.

Fixpoint hasOpen (s : string) : bool :=
  match s with
  | EmptyString => false
  | String c s' => isOpen c || hasOpen s'
  end.

Fixpoint openThenClose (s : string) : bool :=
  match s with
  | EmptyString => false
  | String c s' => if isOpen c then hasClose s' else openThenClose s'
  end.

(** A balanced [{...}] substring, as a property: text in which the braces
    nest, between an opening and a closing brace. *)
Inductive balancedBody : string -> Prop :=
| bb_empty : balancedBody EmptyString
| bb_plain (c : ascii) (w : string) :
    isOpen c = false -> isClose c = false ->
    balancedBody w -> balancedBody (String c w)
| bb_group (w1 w2 : string) :
    balancedBody w1 -> balancedBody w2 ->
    balancedBody (String "{" (w1 ++ String "}" w2)).

Definition balanced (t : string) : Prop :=
  exists w, balancedBody w /\ t = String "{" (w ++ "}").

Definition holdsBalanced (s : string) : Prop :=
  exists pre t post, s = (pre ++ t ++ post)%string /\ balanced t.

Fixpoint braceFree (s : string) : bool :=
  match s with
  | EmptyString => true
  | String c s' => negb (isOpen c) && negb (isClose c) && braceFree s'
  end.

(** ** Truthiness *)

Module Truthy.

(** A number [JNum m e] is the decimal literal [m * 10^e], rounded to
    binary64 when parsed: it rounds to zero exactly when its magnitude is
    at most [2^-1075], half the least subnormal. *)
Definition numberIsZero (m e : Z) : bool :=
  (m =? 0)%Z
  || ((e <? 0)%Z && (Z.abs m * 2 ^ 1075 <=? 10 ^ (- e))%Z).

(** [Boolean(v)] for a value of [JSON.parse], [None] being
    [undefined]. *)
Definition truthy (v : option json) : bool :=
  match v with
  | None => false
  | Some JNull => false
  | Some (JBool b) => b
  | Some (JNum m e) => negb (numberIsZero m e)
  | Some (JStr s) => negb (String.eqb s "")
  | Some (JArr _) => true
  | Some (JObj _) => true
  end.

End Truthy.

(** ** A reader of JSON text

    [JSON.parse] is a built-in of the runtime; the run of the route is
    taken over any such reader (field [JSON_parse] of [World] below).
    [JsonText.parse] is a reader of the JSON grammar (ECMA-404) on the code
    units of this embedding, for the concrete runs; an escape [\uXXXX]
    above U+00FF has no image here and is refused. *)

Module JsonText.

Definition quote : ascii := ascii_of_nat 34.
Definition backslash : ascii := ascii_of_nat 92.

Definition isWs (c : ascii) : bool :=
  let n := nat_of_ascii c in
  ((n =? 32) || (n =? 9) || (n =? 10) || (n =? 13))%nat.

Fixpoint skipWs (s : string) : string :=
  match s with
  | EmptyString => s
  | String c s' => if isWs c then skipWs s' else s
  end.

Definition isDigit (c : ascii) : bool :=
  let n := nat_of_ascii c in ((48 <=? n) && (n <=? 57))%nat.

Definition digitVal (c : ascii) : Z := Z.of_nat (nat_of_ascii c) - 48.

(** The longest run of digits at the head of [s], added to [acc] in base
    ten, with the number of digits read. *)
Fixpoint digits (s : string) (acc count : Z) : Z * Z * string :=
  match s with
  | EmptyString => (acc, count, s)
  | String c s' =>
      if isDigit c then digits s' (10 * acc + digitVal c) (count + 1)
      else (acc, count, s)
  end.

Definition hexVal (c : ascii) : option Z :=
  let n := nat_of_ascii c in
  if ((48 <=? n) && (n <=? 57))%nat then Some (Z.of_nat n - 48)
  else if ((65 <=? n) && (n <=? 70))%nat then Some (Z.of_nat n - 55)
  else if ((97 <=? n) && (n <=? 102))%nat then Some (Z.of_nat n - 87)
  else None.

(** [-? int frac? exp?] *)
Definition parseNumber (s : string) : option (json * string) :=
  let '(neg, s1) :=
    match s with
    | String c r => if Ascii.eqb c "-" then (true, r) else (false, s)
    | EmptyString => (false, s)
    end in
  let int :=
    match s1 with
    | String c r =>
        if Ascii.eqb c "0" then Some (0, r)
        else if isDigit c then let '(v, _, r') := digits s1 0 0 in Some (v, r')
        else None
    | EmptyString => None
    end in
  match int with
  | None => None
  | Some (v, r) =>
      let frac :=
        match r with
        | String c r' =>
            if Ascii.eqb c "." then
              let '(v', n, r'') := digits r' v 0 in
              if (n =? 0)%Z then None else Some (v', n, r'')
            else Some (v, 0, r)
        | EmptyString => Some (v, 0, r)
        end in
      match frac with
      | None => None
      | Some (m, scale, r1) =>
          let exp :=
            match r1 with
            | String c r' =>
                if Ascii.eqb c "e" || Ascii.eqb c "E" then
                  let '(sign, r'') :=
                    match r' with
                    | String d t =>
                        if Ascii.eqb d "-" then (-1, t)
                        else if Ascii.eqb d "+" then (1, t)
                        else (1, r')
                    | EmptyString => (1, r')
                    end in
                  let '(x, n, r3) := digits r'' 0 0 in
                  if (n =? 0)%Z then None else Some (sign * x, r3)
                else Some (0, r1)
            | EmptyString => Some (0, r1)
            end in
          match exp with
          | None => None
          | Some (x, r2) =>
              Some (JNum (if neg : bool then - m else m) (x - scale), r2)
          end
      end
  end.

(** The characters of a string after its opening quote, with the text
    after the closing quote. *)
Fixpoint parseChars (s : string) : option (string * string) :=
  match s with
  | EmptyString => None
  | String c r =>
      if Ascii.eqb c quote then Some (EmptyString, r)
      else if Ascii.eqb c backslash then
        match r with
        | EmptyString => None
        | String e r' =>
            let plain (x : ascii) :=
              match parseChars r' with
              | Some (str, rest) => Some (String x str, rest)
              | None => None
              end in
            if Ascii.eqb e quote then plain quote
            else if Ascii.eqb e backslash then plain backslash
            else if Ascii.eqb e "/" then plain "/"%char
            else if Ascii.eqb e "b" then plain (ascii_of_nat 8)
            else if Ascii.eqb e "f" then plain (ascii_of_nat 12)
            else if Ascii.eqb e "n" then plain (ascii_of_nat 10)
            else if Ascii.eqb e "r" then plain (ascii_of_nat 13)
            else if Ascii.eqb e "t" then plain (ascii_of_nat 9)
            else if Ascii.eqb e "u" then
              match r' with
              | String h1 (String h2 (String h3 (String h4 r''))) =>
                  match hexVal h1, hexVal h2, hexVal h3, hexVal h4 with
                  | Some a, Some b, Some c', Some d =>
                      let u := ((a * 16 + b) * 16 + c') * 16 + d in
                      if (u <? 256)%Z then
                        match parseChars r'' with
                        | Some (str, rest) =>
                            Some (String (ascii_of_nat (Z.to_nat u)) str, rest)
                        | None => None
                        end
                      else None
                  | _, _, _, _ => None
                  end
              | _ => None
              end
            else None
        end
      else if (nat_of_ascii c <? 32)%nat then None
      else
        match parseChars r with
        | Some (str, rest) => Some (String c str, rest)
        | None => None
        end
  end.

Definition keyword (k : string) (v : json) (s : string)
  : option (json * string) :=
  if Str.startsWith k s
  then Some (v, substring (String.length k) (String.length s) s)
  else None.

Fixpoint parseValue (fuel : nat) (s : string) : option (json * string) :=
  match fuel with
  | O => None
  | S k =>
      match skipWs s with
      | EmptyString => None
      | String c r =>
          if Ascii.eqb c "{" then
            match skipWs r with
            | String c' r' =>
                if Ascii.eqb c' "}" then Some (JObj [], r')
                else
                  match parseMembers k (String c' r') with
                  | Some (ms, rest) => Some (JObj ms, rest)
                  | None => None
                  end
            | EmptyString => None
            end
          else if Ascii.eqb c "[" then
            match skipWs r with
            | String c' r' =>
                if Ascii.eqb c' "]" then Some (JArr [], r')
                else
                  match parseItems k (String c' r') with
                  | Some (vs, rest) => Some (JArr vs, rest)
                  | None => None
                  end
            | EmptyString => None
            end
          else if Ascii.eqb c quote then
            match parseChars r with
            | Some (str, rest) => Some (JStr str, rest)
            | None => None
            end
          else if Ascii.eqb c "t" then keyword "true" (JBool true) (String c r)
          else if Ascii.eqb c "f" then keyword "false" (JBool false) (String c r)
          else if Ascii.eqb c "n" then keyword "null" JNull (String c r)
          else parseNumber (String c r)
      end
  end

with parseItems (fuel : nat) (s : string) : option (list json * string) :=
  match fuel with
  | O => None
  | S k =>
      match parseValue k s with
      | None => None
      | Some (v, r) =>
          match skipWs r with
          | String c r' =>
              if Ascii.eqb c "," then
                match parseItems k r' with
                | Some (vs, rest) => Some (v :: vs, rest)
                | None => None
                end
              else if Ascii.eqb c "]" then Some ([v], r')
              else None
          | EmptyString => None
          end
      end
  end

with parseMembers (fuel : nat) (s : string)
  : option (list (string * json) * string) :=
  match fuel with
  | O => None
  | S k =>
      match skipWs s with
      | String q r =>
          if Ascii.eqb q quote then
            match parseChars r with
            | None => None
            | Some (key, r1) =>
                match skipWs r1 with
                | String c r2 =>
                    if Ascii.eqb c ":" then
                      match parseValue k r2 with
                      | None => None
                      | Some (v, r3) =>
                          match skipWs r3 with
                          | String d r4 =>
                              if Ascii.eqb d "," then
                                match parseMembers k r4 with
                                | Some (ms, rest) => Some ((key, v) :: ms, rest)
                                | None => None
                                end
                              else if Ascii.eqb d "}" then Some ([(key, v)], r4)
                              else None
                          | EmptyString => None
                          end
                      end
                    else None
                | EmptyString => None
                end
            end
          else None
      | EmptyString => None
      end
  end.

(** [JSON.parse(text)]; the message of the [SyntaxError] is the
    runtime's, one text stands for it. *)
Definition parse (text : string) : result json :=
  match parseValue (2 * String.length text + 2) text with
  | Some (v, rest) =>
      match skipWs rest with
      | EmptyString => Ok v
      | _ => Throw "Unexpected non-whitespace character after JSON"
      end
  | None => Throw "Unexpected token in JSON"
  end.

End JsonText.

(** ** The world of one request *)

(** An entry of the tree listing of the source-control host. *)
Record TreeEntry : Type := mkEntry {
  entryPath : string;
  entryType : string
}.

(** What the call to the completion service gives: [fetch] or
    [resp.json()] rejects; the status is not [ok]; or the body is read,
    [completed aiResponse] holding
    [data?.choices?.[0]?.message?.content || ""] (the service answers a
    string or nothing there). *)
Inductive Reply : Type :=
| rejected (message : string)
| notOk (status : Z) (errorText : string)
| completed (aiResponse : string).

(** The built-ins of the runtime and the services the route calls.  The
    three [gh] calls are read at the places the code reads them:
    [branchInfo?.commit?.sha], [tree.tree || []], and the decoded content
    of a file; [Throw] is a rejected call.  The request to the completion
    service is a function of the batch, the target and the batch index. *)
Record World : Type := mkWorld {
  JSON_parse : string -> result json;
  localeCompare : string -> string -> Z;
  OPENROUTER_KEY : option string;
  ghBranchSha : string -> string -> string -> string -> result (option string);
  ghTree : string -> string -> string -> string -> result (list TreeEntry);
  ghContent : string -> string -> string -> string -> string -> result string;
  openrouter : list SourceFile -> TargetSpec -> Z -> Reply
}.

(** [!s] for a string that may be absent. *)
Definition missing (s : option string) : bool :=
  match s with
  | None => true
  | Some s' => String.eqb s' ""
  end.

(** ** File fetcher *)

Section Sorting.

Variable A : Type.
Variable compare : A -> A -> Z.

Fixpoint insertSorted (x : A) (l : list A) : list A :=
  match l with
  | [] => [x]
  | y :: t => if compare x y <=? 0 then x :: y :: t
              else y :: insertSorted x t
  end.

(** [array.sort(compare)]: a stable sort. *)
Definition sortBy (l : list A) : list A := fold_right insertSorted [] l.

End Sorting.

Arguments insertSorted {A} _ _ _.
Arguments sortBy {A} _ _.

Section Windows.

Variable A : Type.

(** The windows [files.slice(i, i + batchSize)] for
    [i = 0, batchSize, ...]. *)
Fixpoint windowsFrom (fuel : nat) (batchSize : nat) (files : list A)
  : list (list A) :=
  match fuel, files with
  | O, _ => []
  | _, [] => []
  | S k, _ => firstn batchSize files
              :: windowsFrom k batchSize (skipn batchSize files)
  end.

Definition windows (batchSize : nat) (files : list A) : list (list A) :=
  windowsFrom (length files) batchSize files.

End Windows.

Arguments windowsFrom {A} _ _ _.
Arguments windows {A} _ _.

Section Run.

Variable W : World.

(** The comparator given to [allFiles.sort]. *)
Definition byPriorityThenPath (a b : TreeEntry) : Z :=
  let priorityA := getFilePriority (entryPath a) in
  let priorityB := getFilePriority (entryPath b) in
  if negb (priorityA =? priorityB)%Z then priorityA - priorityB
  else localeCompare W (entryPath a) (entryPath b).

(** The body of [batch.map(async (f) => ...)]: [None] is [null]. *)
Definition fetchOne (token owner repo branch : string) (f : TreeEntry)
  : option SourceFile :=
  match ghContent W token owner repo branch (entryPath f) with
  | Throw _ => None
  | Ok decoded =>
      if Str.len decoded >? 100000 then None
      else Some (mkSourceFile (entryPath f) decoded (Str.len decoded)
                              (getFilePriority (entryPath f)))
  end.

(** [batchResults.filter(Boolean)] *)
Fixpoint fetched (l : list (option SourceFile)) : list SourceFile :=
  match l with
  | [] => []
  | Some f :: t => f :: fetched t
  | None :: t => fetched t
  end.

Definition selectFiles (tree : list TreeEntry) : list TreeEntry :=
  let allFiles :=
    filter (fun n => String.eqb (entryType n) "blob"
                     && isRelevantFile (entryPath n)) tree in
  let sortedFiles := sortBy byPriorityThenPath allFiles in
  firstn 200 sortedFiles.

Definition fetchFiles (token owner repo branch : string)
  : result (list SourceFile) :=
  match ghBranchSha W token owner repo branch with
  | Throw m => Throw m
  | Ok sha =>
      if missing sha
      then Throw ("Could not find SHA for branch " ++ branch)
      else
        match ghTree W token owner repo
                     (match sha with Some s => s | None => "" end) with
        | Throw m => Throw m
        | Ok tree =>
            let filesToProcess := selectFiles tree in
            Ok (concat
                  (map (fun batch =>
                          fetched (map (fetchOne token owner repo branch)
                                       batch))
                       (windows 10 filesToProcess)))
        end
  end.

(** ** Conversion engine *)

(** The [try]/[catch] around [JSON.parse(aiResponse)]. *)
Definition parseReply (aiResponse : string) : result json :=
  match JSON_parse W aiResponse with
  | Ok parsed => Ok parsed
  | Throw _ =>
      match jsonMatch aiResponse with
      | Some text =>
          match JSON_parse W text with
          | Ok parsed => Ok parsed
          | Throw e2 =>
              Throw ("Failed to parse AI response as JSON: " ++ e2)
          end
      | None => Throw "AI response does not contain valid JSON"
      end
  end.


(** [!parsed || !Array.isArray(parsed.files)], giving the array. *)
Definition filesArray (parsed : json) : option (list json) :=
  if negb (Truthy.truthy (Some parsed)) then None
  else match Json.prop "files" parsed with
       | Some (JArr items) => Some items
       | _ => None
       end.

(** The predicate of [parsed.files.filter]. *)
Definition validEntry (file : json) : bool :=
  if negb (Truthy.truthy (Some file)) then false
  else match Json.propString "path" file, Json.propString "content" file with
       | Some _, Some _ => true
       | _, _ => false
       end.

Definition convertBatch (batch : list SourceFile) (target : TargetSpec)
           (batchIndex : Z) : result (list json) :=
  if missing (OPENROUTER_KEY W)
  then Throw "Missing OPENROUTER_API_KEY environment variable"
  else
    match openrouter W batch target batchIndex with
    | rejected m => Throw m
    | notOk status errorText =>
        Throw ("OpenRouter API error " ++ Str.ofZ status ++ ": " ++ errorText)
    | completed aiResponse =>
        match parseReply aiResponse with
        | Throw m => Throw m
        | Ok parsed =>
            match filesArray parsed with
            | None => Throw "AI response missing files array"
            | Some files =>
                let validFiles := filter validEntry files in
                if (Z.of_nat (length validFiles) =? 0)%Z
                then Throw ("Batch " ++ Str.ofZ batchIndex
                            ++ ": No valid files in AI response")
                else Ok validFiles
            end
        end
    end.

End Run.

(** ** Request handler *)

(** [req.body]: a field that is absent is [None]. *)
Record Request : Type := mkRequest {
  token : option string;
  owner : option string;
  repo : option string;
  branch : option string;
  target : option TargetSpec
}.

Definition text (s : option string) : string :=
  match s with
  | Some s' => s'
  | None => ""
  end.

(** An element of [batchResults]. *)
Record BatchResult : Type := mkBatchResult {
  batch : Z;
  status : string;
  error : option string;
  fileCount : Z
}.

(** [response.summary]; [batchResultsOf] and [targetOf] are its members
    [batchResults] and [target]. *)
Record Summary : Type := mkSummary {
  totalOriginalFiles : Z;
  totalConvertedFiles : Z;
  successfullyConverted : Z;
  fallbackFiles : Z;
  batchResultsOf : list BatchResult;
  targetOf : TargetSpec
}.

(** [response.warnings]; [fallbackPaths] is its member [fallbackFiles],
    the [originalPath] of each file counted as fallback ([None] is
    [undefined]). *)
Record Warnings : Type := mkWarnings {
  message : string;
  details : string;
  fallbackPaths : list (option json)
}.

(** The bodies the handler sends: [{error, ...}], [{files: [], message}]
    and [{files, summary, warnings?}]. *)
Inductive Body : Type :=
| errorBody (error : string)
| noFilesBody (message : string)
| convertedBody (files : list json) (summary : Summary)
                (warnings : option Warnings).

Record Response : Type := mkResponse {
  statusCode : Z;
  body : Body
}.

(** The three arrays the batch loop fills. *)
Record Progress : Type := mkProgress {
  converted : list json;
  failedFiles : list SourceFile;
  batchResults : list BatchResult
}.

Definition count {A : Type} (l : list A) : Z := Z.of_nat (length l).

(** [f.isFallback] read as a condition. *)
Definition isFallback (f : json) : bool :=
  Truthy.truthy (Json.prop "isFallback" f).

Section Handler.

Variable W : World.

(** The body of [for (let i = 0; i < batches.length; i++)]: the [try]
    and its [catch]. *)
Definition runBatch (target : TargetSpec) (st : Progress) (i : nat)
           (b : list SourceFile) : Progress :=
  let batchIndex := Z.of_nat i + 1 in
  match convertBatch W b target batchIndex with
  | Ok batchResult =>
      mkProgress (converted st ++ batchResult)
                 (failedFiles st)
                 (batchResults st
                  ++ [mkBatchResult batchIndex "success" None
                                    (count batchResult)])
  | Throw conversionError =>
      let fallbackFiles := createFallbackFiles b target in
      mkProgress (converted st ++ fallbackFiles)
                 (failedFiles st ++ b)
                 (batchResults st
                  ++ [mkBatchResult batchIndex "fallback"
                                    (Some conversionError)
                                    (count fallbackFiles)])
  end.

Fixpoint runBatches (target : TargetSpec) (i : nat)
         (batches : list (list SourceFile)) (st : Progress) : Progress :=
  match batches with
  | [] => st
  | b :: rest => runBatches target (S i) rest (runBatch target st i b)
  end.

Definition respond (target : TargetSpec) (originals : list SourceFile)
           (st : Progress) : Response :=
  let fallbackBatches :=
    count (filter (fun b => String.eqb (status b) "fallback")
                  (batchResults st)) in
  let summary :=
    mkSummary (count originals)
              (count (converted st))
              (count (filter (fun f => negb (isFallback f)) (converted st)))
              (count (filter isFallback (converted st)))
              (batchResults st)
              target in
  let warnings :=
    if fallbackBatches >? 0
    then Some (mkWarnings
                 (Str.ofZ fallbackBatches
                  ++ " batches required fallback conversion")
                 "Some files were converted using fallback method and need manual review"
                 (map (Json.prop "originalPath")
                      (filter isFallback (converted st))))
    else None in
  mkResponse 200 (convertedBody (converted st) summary warnings).

(** [router.post('/')]; the [timestamp] of an error body is left out. *)
Definition convert (req : Request) : Response :=
  if missing (token req) || missing (owner req) || missing (repo req)
     || missing (branch req)
  then mkResponse 400
         (errorBody "Missing required fields: token, owner, repo, branch")
  else
    match target req with
    | None =>
        mkResponse 400
          (errorBody "Missing target specification (language, framework, database required)")
    | Some target =>
        if String.eqb (language target) ""
           || String.eqb (framework target) ""
           || String.eqb (database target) ""
        then mkResponse 400
               (errorBody "Missing target specification (language, framework, database required)")
        else
          match fetchFiles W (text (token req)) (text (owner req))
                           (text (repo req)) (text (branch req)) with
          | Throw m => mkResponse 500 (errorBody m)
          | Ok originals =>
              if (count originals =? 0)%Z
              then mkResponse 200
                     (noFilesBody "No relevant files found in repository")
              else
                respond target originals
                  (runBatches target 0 (planBatches originals)
                              (mkProgress [] [] []))
          end
    end.

End Handler.

(** The files of a response body, when it has a [files] member. *)
Definition filesOf (r : Response) : option (list json) :=
  match body r with
  | errorBody _ => None
  | noFilesBody _ => Some []
  | convertedBody files _ _ => Some files
  end.

(** A run-level error: a response that is not a success. *)
Definition isError (r : Response) : bool := negb (statusCode r =? 200)%Z.

(** ** The earlier revision of the route

    Files are [{path, content}], the selector is [isCodeFile], the planner
    walks [originals] as fetched with a limit of 40000, and a failed batch
    is recorded in [errors] with no stub in its place. *)

Module ConvertSimple.

Record CodeFile : Type := mkCodeFile {
  path : string;
  content : string
}.

(** As [World] above; the request to the completion service is a
    function of the batch and the target, and the service may answer the
    calls of one run differently, so the oracle also takes the number of
    the call. *)
Record World : Type := mkWorld {
  JSON_parse : string -> result json;
  OPENROUTER_KEY : option string;
  ghBranchSha : string -> string -> string -> string -> result (option string);
  ghTree : string -> string -> string -> string -> result (list TreeEntry);
  ghContent : string -> string -> string -> string -> string -> result string;
  openrouter : nat -> list CodeFile -> TargetSpec -> Reply
}.

Definition codeExtensionList : list string :=
  [ "ts"; "tsx"; "js"; "jsx"; "py"; "cs"; "java"; "go"; "rs"; "php"; "rb";
    "kt"; "scala"; "sql"; "sh"; "yml"; "yaml"; "json"; "html"; "css"; "scss";
    "less" ].

Definition isCodeFile (p : string) : bool :=
  existsb (fun ext => Str.endsWith ("." ++ ext) (Str.foldCase p))
          codeExtensionList.

Definition contentLength (f : CodeFile) : Z := Str.len (content f).

Definition sizeLimit : Z := 40000.

Definition planBatches (originals : list CodeFile) : list (list CodeFile) :=
  greedyBatches contentLength sizeLimit originals.

(** An element of [errors]. *)
Record BatchError : Type := mkBatchError {
  batch : Z;
  error : string;
  fileCount : Z
}.

Record Stats : Type := mkStats {
  originalFiles : Z;
  convertedFiles : Z;
  batchCount : Z;
  successfulBatches : Z;
  targetOf : TargetSpec
}.

(** [{error, ...}], [{files: [], message}], [{error, details, message}]
    and [{files, stats, warnings?}]; the warnings are a message and the
    [errors]. *)
Inductive Body : Type :=
| errorBody (error : string)
| noFilesBody (message : string)
| failedBody (error : string) (details : list BatchError) (message : string)
| convertedBody (files : list json) (stats : Stats)
                (warnings : option (string * list BatchError)).

Record Response : Type := mkResponse {
  statusCode : Z;
  body : Body
}.

Record Progress : Type := mkProgress {
  converted : list json;
  errors : list BatchError
}.

Section Run.

Variable W : World.

Fixpoint fetched (l : list (option CodeFile)) : list CodeFile :=
  match l with
  | [] => []
  | Some f :: t => f :: fetched t
  | None :: t => fetched t
  end.

Definition fetchOne (token owner repo branch : string) (f : TreeEntry)
  : option CodeFile :=
  match ghContent W token owner repo branch (entryPath f) with
  | Throw _ => None
  | Ok decoded => Some (mkCodeFile (entryPath f) decoded)
  end.

Definition fetchFiles (token owner repo branch : string)
  : result (list CodeFile) :=
  match ghBranchSha W token owner repo branch with
  | Throw m => Throw m
  | Ok sha =>
      if missing sha
      then Throw ("Could not find SHA for branch " ++ branch)
      else
        match ghTree W token owner repo
                     (match sha with Some s => s | None => "" end) with
        | Throw m => Throw m
        | Ok tree =>
            let files :=
              firstn 50
                (filter (fun n => String.eqb (entryType n) "blob"
                                  && isCodeFile (entryPath n)) tree) in
            Ok (concat
                  (map (fun batch =>
                          fetched (map (fetchOne token owner repo branch)
                                       batch))
                       (windows 5 files)))
        end
  end.

(** The inside of the [try] of [convertBatch]. *)
Definition tryConvert (call : nat) (batch : list CodeFile)
           (target : TargetSpec) : result (list json) :=
  match openrouter W call batch target with
  | rejected m => Throw m
  | notOk status errorText =>
      Throw ("OpenRouter API error " ++ Str.ofZ status ++ ": " ++ errorText)
  | completed aiResponse =>
      let parsed :=
        match JSON_parse W aiResponse with
        | Ok parsed => Ok parsed
        | Throw _ =>
            match jsonMatch aiResponse with
            | Some text' =>
                match JSON_parse W text' with
                | Ok parsed => Ok parsed
                | Throw _ => Throw "AI returned invalid JSON format"
                end
            | None => Throw "AI did not return JSON format"
            end
        end in
      match parsed with
      | Throw m => Throw m
      | Ok parsed =>
          match filesArray parsed with
          | None => Throw "AI returned invalid response structure"
          | Some files =>
              let validFiles := filter validEntry files in
              if (Z.of_nat (length validFiles) =? 0)%Z
              then Throw "No valid converted files in AI response"
              else Ok validFiles
          end
      end
  end.

Definition convertBatch (call : nat) (batch : list CodeFile)
           (target : TargetSpec) : result (list json) :=
  if missing (OPENROUTER_KEY W)
  then Throw "Missing OPENROUTER_API_KEY environment variable"
  else
    match tryConvert call batch target with
    | Ok validFiles => Ok validFiles
    | Throw m => Throw ("Failed to convert files: " ++ m)
    end.

Definition runBatch (target : TargetSpec) (st : Progress) (i : nat)
           (b : list CodeFile) : Progress :=
  match convertBatch i b target with
  | Ok batchResult => mkProgress (converted st ++ batchResult) (errors st)
  | Throw conversionError =>
      mkProgress (converted st)
                 (errors st
                  ++ [mkBatchError (Z.of_nat i + 1) conversionError
                                   (count b)])
  end.

Fixpoint runBatches (target : TargetSpec) (i : nat)
         (batches : list (list CodeFile)) (st : Progress) : Progress :=
  match batches with
  | [] => st
  | b :: rest => runBatches target (S i) rest (runBatch target st i b)
  end.

Definition respond (target : TargetSpec) (originals : list CodeFile)
           (batches : list (list CodeFile)) (st : Progress) : Response :=
  if (count (converted st) =? 0)%Z
  then mkResponse 500
         (failedBody "Conversion failed for all batches" (errors st)
            "No files were successfully converted. Please check the error details and try again.")
  else
    mkResponse 200
      (convertedBody (converted st)
         (mkStats (count originals) (count (converted st)) (count batches)
                  (count batches - count (errors st)) target)
         (if count (errors st) >? 0
          then Some ((Str.ofZ (count (errors st))
                      ++ " batches failed to convert")%string, errors st)
          else None)).

Definition convert (req : Request) : Response :=
  if missing (token req) || missing (owner req) || missing (repo req)
     || missing (branch req)
  then mkResponse 400
         (errorBody "Missing required fields: token, owner, repo, branch")
  else
    match target req with
    | None =>
        mkResponse 400
          (errorBody "Missing or incomplete target specification (language, framework, database required)")
    | Some target =>
        if String.eqb (language target) ""
           || String.eqb (framework target) ""
           || String.eqb (database target) ""
        then mkResponse 400
               (errorBody "Missing or incomplete target specification (language, framework, database required)")
        else
          match fetchFiles (text (token req)) (text (owner req))
                           (text (repo req)) (text (branch req)) with
          | Throw m => mkResponse 500 (errorBody m)
          | Ok originals =>
              if (count originals =? 0)%Z
              then mkResponse 200
                     (noFilesBody "No code files found in repository")
              else
                let batches := planBatches originals in
                respond target originals batches
                  (runBatches target 0 batches (mkProgress [] []))
          end
    end.

End Run.

Definition filesOf (r : Response) : option (list json) :=
  match body r with
  | errorBody _ => None
  | noFilesBody _ => Some []
  | failedBody _ _ _ => None
  | convertedBody files _ _ => Some files
  end.

Definition isError (r : Response) : bool := negb (statusCode r =? 200)%Z.

End ConvertSimple.

(** ** Predicates of the statements *)

Section GreedyPredicates.

Variable A : Type.
Variable contentLength : A -> Z.
Variable sizeLimit : Z.

(** A batch within the limit, or one file that alone exceeds it. *)
Definition withinLimit (b : list A) : Prop :=
  batchSize contentLength b <= sizeLimit
  \/ exists f, b = [f] /\ contentLength f > sizeLimit.

Definition batchOk (b : list A) : Prop := b <> [] /\ withinLimit b.

(** What the loop of the planner keeps true. *)
Definition plannerInv (st : planner A) : Prop :=
  currentSize st = batchSize contentLength (currentBatch st)
  /\ Forall batchOk (batches st)
  /\ (currentBatch st = [] \/ batchOk (currentBatch st)).

(** The files the planner has placed so far. *)
Definition planned (st : planner A) : list A :=
  concat (batches st) ++ currentBatch st.

End GreedyPredicates.

Arguments withinLimit {A} _ _ _.
Arguments batchOk {A} _ _ _.
Arguments plannerInv {A} _ _ _.
Arguments planned {A} _.

(** The files a run hands to the planner have one of the three
    priorities. *)
Definition tiered (f : SourceFile) : Prop :=
  priority f = 1 \/ priority f = 2 \/ priority f = 3.

(** What one turn of the batch loop appends to [converted] and to
    [batchResults]. *)
Definition batchOutput (W : World) (target : TargetSpec) (i : nat)
           (b : list SourceFile) : list json :=
  match convertBatch W b target (Z.of_nat i + 1) with
  | Ok batchResult => batchResult
  | Throw _ => createFallbackFiles b target
  end.

Definition batchOutcome (W : World) (target : TargetSpec) (i : nat)
           (b : list SourceFile) : BatchResult :=
  match convertBatch W b target (Z.of_nat i + 1) with
  | Ok batchResult =>
      mkBatchResult (Z.of_nat i + 1) "success" None (count batchResult)
  | Throw conversionError =>
      mkBatchResult (Z.of_nat i + 1) "fallback" (Some conversionError)
                    (count (createFallbackFiles b target))
  end.

Fixpoint outputsFrom (W : World) (target : TargetSpec) (i : nat)
         (batches : list (list SourceFile)) : list (list json) :=
  match batches with
  | [] => []
  | b :: rest => batchOutput W target i b :: outputsFrom W target (S i) rest
  end.

Fixpoint outcomesFrom (W : World) (target : TargetSpec) (i : nat)
         (batches : list (list SourceFile)) : list BatchResult :=
  match batches with
  | [] => []
  | b :: rest => batchOutcome W target i b :: outcomesFrom W target (S i) rest
  end.

(** The target of a request that passes the two validations of the
    handler. *)
Definition requestTarget (req : Request) : option TargetSpec :=
  if missing (token req) || missing (owner req) || missing (repo req)
     || missing (branch req)
  then None
  else
    match target req with
    | None => None
    | Some target =>
        if String.eqb (language target) ""
           || String.eqb (framework target) ""
           || String.eqb (database target) ""
        then None
        else Some target
    end.

(** The fetch of the run of a request. *)
Definition fetchOf (W : World) (req : Request) : result (list SourceFile) :=
  fetchFiles W (text (token req)) (text (owner req)) (text (repo req))
             (text (branch req)).

Definition simpleFetchOf (W : ConvertSimple.World) (req : Request)
  : result (list ConvertSimple.CodeFile) :=
  ConvertSimple.fetchFiles W (text (token req)) (text (owner req))
                           (text (repo req)) (text (branch req)).

(** A tree entry the selector accepts. *)
Definition selectable (n : TreeEntry) : Prop :=
  entryType n = "blob" /\ isRelevantFile (entryPath n) = true.

(** ** Concrete files and worlds *)

Module Sample.

(** A text of [n] code units. *)
Fixpoint filler (n : nat) : string :=
  match n with
  | O => EmptyString
  | S k => String "x" (filler k)
  end.

Definition big : string := filler (Z.to_nat 30000).

Definition f1 : ConvertSimple.CodeFile := ConvertSimple.mkCodeFile "src/a.ts" big.
Definition f2 : ConvertSimple.CodeFile := ConvertSimple.mkCodeFile "src/b.ts" big.
Definition f3 : ConvertSimple.CodeFile := ConvertSimple.mkCodeFile "src/c.ts" big.

Definition g1 : SourceFile := mkSourceFile "src/a.ts" big 30000 3.
Definition g2 : SourceFile := mkSourceFile "src/b.ts" big 30000 3.
Definition g3 : SourceFile := mkSourceFile "src/c.ts" big 30000 3.

Definition manifest : SourceFile :=
  mkSourceFile "package.json" "{}" 2 1.
Definition entry : SourceFile :=
  mkSourceFile "src/app.ts" "export const app = 1;" 21 2.
Definition readme : SourceFile :=
  mkSourceFile "README.md" "# demo" 6 3.

Definition python : TargetSpec := mkTarget "python" "django" "postgres".

Definition dq : string := String JsonText.quote EmptyString.

(** A reply of one converted file, said to come from a file that is not
    in the repository; [inventedInner] is the reply after its first
    brace. *)
Definition inventedInner : string :=
  dq ++ "files" ++ dq ++ ":[{"
  ++ dq ++ "path" ++ dq ++ ":" ++ dq ++ "src/app.py" ++ dq ++ ","
  ++ dq ++ "content" ++ dq ++ ":" ++ dq ++ "app = 1" ++ dq ++ ","
  ++ dq ++ "originalPath" ++ dq ++ ":" ++ dq ++ "lib/ghost.ts" ++ dq
  ++ "}]}".

Definition invented : string := String "{" inventedInner.

(** The object that reply holds. *)
Definition ghostFile : json :=
  JObj [ ("path", JStr "src/app.py");
         ("content", JStr "app = 1");
         ("originalPath", JStr "lib/ghost.ts") ].

(** The same reply followed by prose that holds a closing brace. *)
Definition chatty : string := invented ++ " Every } is in place.".

Definition refusal : string := "I am sorry, I cannot convert these files.".

Definition tree : list TreeEntry :=
  [ mkEntry "src" "tree";
    mkEntry "src/app.ts" "blob";
    mkEntry "README.md" "blob";
    mkEntry "package.json" "blob";
    mkEntry "node_modules/x/y.js" "blob" ].

(** Comparison by code units stands for [localeCompare]. *)
Definition byCodeUnits (a b : string) : Z :=
  match String.compare a b with
  | Lt => -1
  | Eq => 0
  | Gt => 1
  end.

Definition world (contents : string -> result string) (reply : Reply)
  : World :=
  mkWorld JsonText.parse byCodeUnits (Some "sk-or-key")
          (fun _ _ _ _ => Ok (Some "4f2a9c"))
          (fun _ _ _ _ => Ok tree)
          (fun _ _ _ _ p => contents p)
          (fun _ _ _ => reply).

Definition readable (p : string) : result string :=
  Ok ("// " ++ p)%string.

Definition unreadable (p : string) : result string :=
  Throw "GitHub API error 403: rate limit exceeded".

(** What [fetchFiles] returns in a world whose files are [readable]. *)
Definition fetchedFiles : list SourceFile :=
  [ mkSourceFile "package.json" "// package.json" 15 1;
    mkSourceFile "src/app.ts" "// src/app.ts" 13 2;
    mkSourceFile "README.md" "// README.md" 12 3 ].

Definition request : Request :=
  mkRequest (Some "gho_token") (Some "acme") (Some "shop") (Some "main")
            (Some python).

End Sample.
From Stdlib Require Import Sorted.

(** ** Further predicates of the statements *)

Section GreedyShape.

Variable A : Type.
Variable contentLength : A -> Z.
Variable sizeLimit : Z.

(** The first file of the batch [c] would not have fitted in the batch
    [b] before it. *)
Definition overflows (b c : list A) : Prop :=
  match c with
  | [] => True
  | f :: _ => batchSize contentLength b + contentLength f > sizeLimit
  end.

(** Every batch but the last was closed on a file that did not fit. *)
Fixpoint tight (bs : list (list A)) : Prop :=
  match bs with
  | [] => True
  | b :: rest =>
      match rest with
      | [] => True
      | c :: _ => overflows b c
      end
      /\ tight rest
  end.

End GreedyShape.

Arguments overflows {A} _ _ _ _.
Arguments tight {A} _ _ _.

(** Order of two tree entries, and of two fetched files, by priority. *)
Definition entryPriorityLe (a b : TreeEntry) : Prop :=
  getFilePriority (entryPath a) <= getFilePriority (entryPath b).

Definition priorityLe (a b : SourceFile) : Prop := priority a <= priority b.

(** The entries [fetchFiles] keeps of a tree listing, before the sort. *)
Definition accepted (tree : list TreeEntry) : list TreeEntry :=
  filter (fun n => String.eqb (entryType n) "blob"
                   && isRelevantFile (entryPath n)) tree.

(** The sum of the [fileCount] of the batch results. *)
Definition sumCounts (rs : list BatchResult) : Z :=
  fold_right (fun r acc => fileCount r + acc) 0 rs.

(** The batch numbers [1, 2, ..., n]. *)
Definition batchNumbers (n : nat) : list Z :=
  map (fun k => Z.of_nat k + 1) (seq 0 n).

(** A file of a result as the exporters read it: an object whose [path]
    and [content] are strings. *)
Definition exportable (f : json) : Prop :=
  exists p c, Json.propString "path" f = Some p
              /\ Json.propString "content" f = Some c.

(** What one turn of the batch loop of the earlier route appends to
    [converted] and to [errors]. *)
Definition simpleOutput (V : ConvertSimple.World) (target : TargetSpec)
           (i : nat) (b : list ConvertSimple.CodeFile) : list json :=
  match ConvertSimple.convertBatch V i b target with
  | Ok batchResult => batchResult
  | Throw _ => []
  end.

Definition simpleError (V : ConvertSimple.World) (target : TargetSpec)
           (i : nat) (b : list ConvertSimple.CodeFile)
  : list ConvertSimple.BatchError :=
  match ConvertSimple.convertBatch V i b target with
  | Ok _ => []
  | Throw conversionError =>
      [ConvertSimple.mkBatchError (Z.of_nat i + 1) conversionError (count b)]
  end.

Fixpoint simpleOutputsFrom (V : ConvertSimple.World) (target : TargetSpec)
         (i : nat) (batches : list (list ConvertSimple.CodeFile))
  : list json :=
  match batches with
  | [] => []
  | b :: rest =>
      simpleOutput V target i b ++ simpleOutputsFrom V target (S i) rest
  end.

Fixpoint simpleErrorsFrom (V : ConvertSimple.World) (target : TargetSpec)
         (i : nat) (batches : list (list ConvertSimple.CodeFile))
  : list ConvertSimple.BatchError :=
  match batches with
  | [] => []
  | b :: rest =>
      simpleError V target i b ++ simpleErrorsFrom V target (S i) rest
  end.

(** ** Concrete worlds of the earlier route *)

Module SimpleSample.

Definition world (key : option string) (reply : Reply)
  : ConvertSimple.World :=
  ConvertSimple.mkWorld JsonText.parse key
    (fun _ _ _ _ => Ok (Some "4f2a9c"))
    (fun _ _ _ _ => Ok Sample.tree)
    (fun _ _ _ _ p => Sample.readable p)
    (fun _ _ _ => reply).

(** What the earlier [fetchFiles] returns there: the code files of the
    tree in its order, the one under [node_modules] included. *)
Definition fetchedFiles : list ConvertSimple.CodeFile :=
  [ ConvertSimple.mkCodeFile "src/app.ts" "// src/app.ts";
    ConvertSimple.mkCodeFile "package.json" "// package.json";
    ConvertSimple.mkCodeFile "node_modules/x/y.js" "// node_modules/x/y.js" ].

End SimpleSample.

(** ** Where the files of a result come from *)



(** * Properties *)

(** ** The batch planner *)

Section GreedyFacts.

Variable A : Type.
Variable contentLength : A -> Z.
Variable sizeLimit : Z.

Lemma batchSize_snoc (b : list A) (f : A) :
  batchSize contentLength (b ++ [f])
  = batchSize contentLength b + contentLength f.
Proof.
  unfold batchSize.
  induction b as [|x b IH]; simpl.
  - lia.
  - rewrite IH. lia.
Qed.

Lemma nonempty_count (l : list A) :
  (Z.of_nat (length l) >? 0) = true <-> l <> [].
Proof.
  destruct l as [|a l]; simpl; split; intros H.
  - discriminate H.
  - exfalso. apply H. reflexivity.
  - discriminate.
  - reflexivity.
Qed.

Lemma single_ok (f : A) : batchOk contentLength sizeLimit [f].
Proof.
  split; [discriminate|].
  destruct (Z_le_gt_dec (contentLength f) sizeLimit) as [Hle|Hgt].
  - left. simpl. lia.
  - right. exists f. split; [reflexivity | exact Hgt].
Qed.

Lemma planFile_inv (st : planner A) (f : A) :
  plannerInv contentLength sizeLimit st -> plannerInv contentLength sizeLimit (planFile contentLength sizeLimit st f).
Proof.
  intros (Hsize & Hall & Hcur). unfold planFile.
  destruct ((currentSize st + contentLength f >? sizeLimit)
            && (Z.of_nat (length (currentBatch st)) >? 0)) eqn:Htest.
  - apply andb_true_iff in Htest. destruct Htest as [_ Hne].
    apply nonempty_count in Hne.
    destruct Hcur as [Hnil|Hok]; [contradiction|].
    repeat split; simpl.
    + lia.
    + apply Forall_app. split; [exact Hall|]. constructor; [exact Hok|constructor].
    + right. apply single_ok.
  - repeat split; simpl.
    + rewrite batchSize_snoc. lia.
    + exact Hall.
    + right. apply andb_false_iff in Htest.
      destruct (currentBatch st) as [|x b] eqn:Hb.
      * apply single_ok.
      * destruct Htest as [Hfit|Hempty].
        -- split; [discriminate|]. left.
           change (x :: b ++ [f]) with ((x :: b) ++ [f]).
           rewrite batchSize_snoc, <- Hsize. lia.
        -- simpl in Hempty. discriminate.
Qed.

Lemma planFile_planned (st : planner A) (f : A) :
  planned (planFile contentLength sizeLimit st f) = planned st ++ [f].
Proof.
  unfold planFile, planned.
  destruct ((currentSize st + contentLength f >? sizeLimit)
            && (Z.of_nat (length (currentBatch st)) >? 0)); simpl.
  - rewrite concat_app. simpl. rewrite app_nil_r. reflexivity.
  - rewrite app_assoc. reflexivity.
Qed.

Lemma planLoop_inv (files : list A) :
  forall st, plannerInv contentLength sizeLimit st ->
    plannerInv contentLength sizeLimit (fold_left (planFile contentLength sizeLimit) files st).
Proof.
  induction files as [|f files IH]; intros st Hst; simpl.
  - exact Hst.
  - apply IH, planFile_inv, Hst.
Qed.

Lemma planLoop_planned (files : list A) :
  forall st,
    planned (fold_left (planFile contentLength sizeLimit) files st)
    = planned st ++ files.
Proof.
  induction files as [|f files IH]; intros st; simpl.
  - rewrite app_nil_r. reflexivity.
  - rewrite IH, planFile_planned, <- app_assoc. reflexivity.
Qed.

Lemma planClose_ok (st : planner A) :
  plannerInv contentLength sizeLimit st -> Forall (batchOk contentLength sizeLimit) (planClose st).
Proof.
  intros (_ & Hall & Hcur). unfold planClose.
  destruct (Z.of_nat (length (currentBatch st)) >? 0) eqn:Hne.
  - apply nonempty_count in Hne.
    destruct Hcur as [Hnil|Hok]; [contradiction|].
    apply Forall_app. split; [exact Hall|]. constructor; [exact Hok|constructor].
  - exact Hall.
Qed.

Lemma planClose_concat (st : planner A) :
  concat (planClose st) = planned st.
Proof.
  unfold planClose, planned.
  destruct (currentBatch st) as [|x b]; simpl.
  - rewrite app_nil_r. reflexivity.
  - rewrite concat_app. simpl. rewrite app_nil_r. reflexivity.
Qed.

Lemma greedy_batches_ok (files : list A) :
  Forall (batchOk contentLength sizeLimit) (greedyBatches contentLength sizeLimit files).
Proof.
  apply planClose_ok, planLoop_inv.
  repeat split; simpl; auto.
Qed.

Lemma greedy_concat (files : list A) :
  concat (greedyBatches contentLength sizeLimit files) = files.
Proof.
  unfold greedyBatches. rewrite planClose_concat, planLoop_planned.
  reflexivity.
Qed.

End GreedyFacts.

Lemma getFilePriority_range (p : string) :
  getFilePriority p = 1 \/ getFilePriority p = 2 \/ getFilePriority p = 3.
Proof.
  unfold getFilePriority.
  destruct (_ || _); [auto|]. destruct (_ || _); auto.
Qed.

Lemma fileGroups_permutation (originals : list SourceFile) :
  Forall tiered originals ->
  Permutation (concat (fileGroups originals)) originals.
Proof.
  unfold fileGroups. simpl. rewrite app_nil_r.
  induction 1 as [|f l Hf _ IH]; simpl.
  - constructor.
  - destruct Hf as [H|[H|H]]; rewrite H; simpl.
    + constructor. exact IH.
    + apply Permutation_sym, Permutation_cons_app, Permutation_sym, IH.
    + apply Permutation_sym.
      rewrite app_assoc. apply Permutation_cons_app.
      rewrite <- app_assoc. apply Permutation_sym, IH.
  Qed.

(** C2: every batch of the planner stays within [sizeLimit] unless it is
    one file that alone exceeds it, and the batches together hold the input
    files, each exactly once: in the later revision the files of the three
    priority tiers one tier after the other (a permutation of the input),
    in the earlier revision the input in its order. *)
Theorem planner_batches_bounded_and_exact (originals : list SourceFile)
        (Htiers : Forall tiered originals) :
  (forall b, In b (planBatches originals) ->
     b <> [] /\ withinLimit contentLength sizeLimit b)
  /\ concat (planBatches originals) = concat (fileGroups originals)
  /\ Permutation (concat (planBatches originals)) originals
  /\ forall simple : list ConvertSimple.CodeFile,
       (forall b, In b (ConvertSimple.planBatches simple) ->
          b <> []
          /\ withinLimit ConvertSimple.contentLength ConvertSimple.sizeLimit b)
       /\ concat (ConvertSimple.planBatches simple) = simple.
Proof.
  unfold planBatches, ConvertSimple.planBatches.
  repeat split.
  - pose proof (greedy_batches_ok _ contentLength sizeLimit
                  (concat (fileGroups originals))) as Hall.
    rewrite Forall_forall in Hall. apply (Hall b H).
  - pose proof (greedy_batches_ok _ contentLength sizeLimit
                  (concat (fileGroups originals))) as Hall.
    rewrite Forall_forall in Hall. apply (Hall b H).
  - apply greedy_concat.
  - rewrite greedy_concat. apply fileGroups_permutation, Htiers.
  - pose proof (greedy_batches_ok _ ConvertSimple.contentLength
                  ConvertSimple.sizeLimit simple) as Hall.
    rewrite Forall_forall in Hall. apply (Hall b H).
  - pose proof (greedy_batches_ok _ ConvertSimple.contentLength
                  ConvertSimple.sizeLimit simple) as Hall.
    rewrite Forall_forall in Hall. apply (Hall b H).
  - apply greedy_concat.
Qed.

Lemma planner_batches_bounded_and_exact_witness :
  Forall tiered [Sample.readme; Sample.manifest; Sample.entry]
  /\ concat (planBatches [Sample.readme; Sample.manifest; Sample.entry])
     = [Sample.manifest; Sample.entry; Sample.readme].
Proof.
  assert (Ht : Forall tiered [Sample.readme; Sample.manifest; Sample.entry]).
  { repeat apply Forall_cons; try apply Forall_nil; unfold tiered; simpl; auto. }
  split; [exact Ht|].
  destruct (planner_batches_bounded_and_exact _ Ht) as (_ & Hcat & _).
  rewrite Hcat. reflexivity.
Defined.

Lemma filler_len (n : nat) : Str.len (Sample.filler n) = Z.of_nat n.
Proof.
  unfold Str.len. f_equal.
  induction n as [|n IH]; simpl; [reflexivity | now rewrite IH].
Qed.

Lemma big_len : Str.len Sample.big = 30000.
Proof. unfold Sample.big. rewrite filler_len. apply Z2Nat.id. lia. Qed.

Section GreedySteps.

Variable A : Type.
Variable size : A -> Z.
Variable limit : Z.

Lemma planFile_first (done : list (list A)) (n : Z) (f : A) :
  planFile size limit (mkPlanner done [] n) f
  = mkPlanner done [f] (n + size f).
Proof.
  unfold planFile. simpl. rewrite andb_false_r. reflexivity.
Qed.

Lemma planFile_closes (done : list (list A)) (x : A) (cur : list A)
      (n : Z) (f : A) :
  n + size f > limit ->
  planFile size limit (mkPlanner done (x :: cur) n) f
  = mkPlanner (done ++ [x :: cur]) [f] (0 + size f).
Proof.
  intros Hover. unfold planFile. simpl.
  replace (n + size f >? limit) with true
    by (symmetry; apply Z.gtb_lt; lia).
  reflexivity.
Qed.

Lemma three_oversized_pairs (s : Z) (a b c : A) :
  size a = s -> size b = s -> size c = s -> s + s > limit ->
  greedyBatches size limit [a; b; c] = [[a]; [b]; [c]].
Proof.
  intros Ha Hb Hc Hover.
  unfold greedyBatches, plannerStart. simpl fold_left.
  rewrite planFile_first.
  rewrite planFile_closes by (rewrite Ha, Hb; lia).
  rewrite planFile_closes by (rewrite Hb, Hc; lia).
  reflexivity.
Qed.

End GreedySteps.

(** C9: three files of content size 30000 under the limit of 40000 are
    planned as the three batches of one file each, in the order given; so
    by the route whose limit is 40000, and by the planning loop of the
    later route run with that limit. *)
Theorem three_files_of_30000_make_three_batches
        (f1 f2 f3 : ConvertSimple.CodeFile) (g1 g2 g3 : SourceFile)
        (H1 : ConvertSimple.contentLength f1 = 30000)
        (H2 : ConvertSimple.contentLength f2 = 30000)
        (H3 : ConvertSimple.contentLength f3 = 30000)
        (K1 : contentLength g1 = 30000)
        (K2 : contentLength g2 = 30000)
        (K3 : contentLength g3 = 30000) :
  ConvertSimple.sizeLimit = 40000
  /\ ConvertSimple.planBatches [f1; f2; f3] = [[f1]; [f2]; [f3]]
  /\ greedyBatches contentLength 40000 [g1; g2; g3] = [[g1]; [g2]; [g3]].
Proof.
  split; [reflexivity|]. split.
  - unfold ConvertSimple.planBatches, ConvertSimple.sizeLimit.
    apply (three_oversized_pairs _ _ 40000 30000); auto; lia.
  - apply (three_oversized_pairs _ _ 40000 30000); auto; lia.
Qed.

Lemma three_files_of_30000_make_three_batches_witness :
  ConvertSimple.planBatches [Sample.f1; Sample.f2; Sample.f3]
  = [[Sample.f1]; [Sample.f2]; [Sample.f3]].
Proof.
  apply (three_files_of_30000_make_three_batches
           Sample.f1 Sample.f2 Sample.f3 Sample.g1 Sample.g2 Sample.g3);
    apply big_len.
Defined.

(** ** Strings *)

Lemma append_assoc (a b c : string) :
  ((a ++ b) ++ c)%string = (a ++ b ++ c)%string.
Proof. induction a as [|x a IH]; simpl; [reflexivity | now rewrite IH]. Qed.





Lemma split_without_separator (sep : ascii) (s : string) :
  Str.includes (String sep "") s = false -> Str.split sep s = [s].
Proof.
  induction s as [|c s IH]; intros Hno.
  - reflexivity.
  - simpl in Hno. apply orb_false_iff in Hno. destruct Hno as [Hhead Htail].
    simpl. rewrite Ascii.eqb_sym.
    rewrite andb_true_r in Hhead. rewrite Hhead.
    rewrite (IH Htail). reflexivity.
Qed.

(** ** The fallback generator *)









(** ** The file selector *)

(** C8, at a path whose directory holds an entrypoint marker: the file
    name [user.ts] holds none, so the rule of the claim gives priority 3;
    [getFilePriority] searches the whole path, finds [main] in [domain],
    and gives 2. *)
Theorem priority_reads_directory_components :
  isRelevantFile "domain/user.ts" = true
  /\ fileNameOf "domain/user.ts" = "user.ts"
  /\ priorityOfFileName "domain/user.ts" = 3
  /\ getFilePriority "domain/user.ts" = 2.
Proof. repeat split. Qed.

(** ** Recovery of the JSON text *)

Lemma uptoLastClose_none (s : string) :
  uptoLastClose s = None <-> hasClose s = false.
Proof.
  induction s as [|c s IH]; simpl.
  - tauto.
  - destruct (uptoLastClose s) as [t|].
    + assert (Hs : hasClose s = true).
      { destruct (hasClose s); [reflexivity|].
        destruct IH as [_ IH]. discriminate (IH eq_refl). }
      rewrite Hs, orb_true_r. split; discriminate.
    + destruct IH as [IH _]. rewrite (IH eq_refl), orb_false_r.
      destruct (isClose c); split; congruence.
Qed.

Lemma jsonMatch_none (s : string) :
  jsonMatch s = None <-> openThenClose s = false.
Proof.
  unfold jsonMatch.
  induction s as [|c s IH]; simpl.
  - tauto.
  - destruct (isOpen c).
    + rewrite <- uptoLastClose_none.
      destruct (uptoLastClose s); split; congruence.
    + exact IH.
Qed.

Lemma closeAt_without_close (s : string) :
  hasClose s = false -> forall depth, closeAt depth s = None.
Proof.
  induction s as [|c s IH]; simpl; intros Hno depth.
  - reflexivity.
  - apply orb_false_iff in Hno. destruct Hno as [Hc Hs].
    rewrite Hc. destruct (isOpen c); now rewrite (IH Hs).
Qed.

Lemma firstBalanced_without_close (s : string) :
  hasClose s = false -> firstBalanced s = None.
Proof.
  induction s as [|c s IH]; simpl; intros Hno.
  - reflexivity.
  - apply orb_false_iff in Hno. destruct Hno as [_ Hs].
    rewrite (closeAt_without_close s Hs), (IH Hs).
    now destruct (isOpen c).
Qed.

Lemma unclosed_without_close (s : string) :
  firstBalanced s = None -> closeAt 0 s = None -> hasClose s = false.
Proof.
  induction s as [|c s IH]; simpl.
  - reflexivity.
  - destruct (isOpen c) eqn:Ho.
    + assert (Hc : isClose c = false).
      { unfold isOpen, isClose in *. apply Ascii.eqb_eq in Ho. now subst c. }
      rewrite Hc. simpl.
      destruct (closeAt 0 s) eqn:H0; [discriminate|].
      intros Hfb _. now apply IH.
    + destruct (isClose c); simpl; [discriminate|].
      intros Hfb H0. apply IH; [exact Hfb|].
      destruct (closeAt 0 s); [discriminate | reflexivity].
Qed.

Lemma firstBalanced_none (s : string) :
  firstBalanced s = None <-> openThenClose s = false.
Proof.
  split.
  - induction s as [|c s IH]; simpl; [reflexivity|].
    destruct (isOpen c).
    + destruct (closeAt 0 s) eqn:H0; [discriminate|].
      intros Hfb. now apply unclosed_without_close.
    + exact IH.
  - induction s as [|c s IH]; simpl; [reflexivity|].
    destruct (isOpen c).
    + intros Hno. rewrite (closeAt_without_close s Hno).
      now apply firstBalanced_without_close.
    + exact IH.
Qed.

(** The reply has a match of the pattern exactly when it has a balanced
    substring: the two recovery passes fail together, and differ only in
    what they extract. *)
Lemma jsonMatch_none_iff_unbalanced (s : string) :
  jsonMatch s = None <-> firstBalanced s = None.
Proof. rewrite jsonMatch_none, firstBalanced_none. tauto. Qed.

Lemma hasClose_after (x y : string) : hasClose (x ++ String "}" y) = true.
Proof.
  induction x as [|c x IH]; simpl.
  - reflexivity.
  - now rewrite IH, orb_true_r.
Qed.

Lemma openThenClose_found (pre w post : string) :
  openThenClose (pre ++ String "{" (w ++ String "}" post)) = true.
Proof.
  induction pre as [|c pre IH]; simpl.
  - apply hasClose_after.
  - destruct (isOpen c); [|exact IH].
    change (String "{" (w ++ String "}" post))
      with (String "{" w ++ String "}" post)%string.
    rewrite <- append_assoc. apply hasClose_after.
Qed.

Lemma braceFree_balanced (w : string) :
  braceFree w = true -> balancedBody w.
Proof.
  induction w as [|c w IH]; simpl; intros H.
  - constructor.
  - apply andb_true_iff in H. destruct H as [H Hw].
    apply andb_true_iff in H. destruct H as [Ho Hc].
    apply negb_true_iff in Ho. apply negb_true_iff in Hc.
    constructor; auto.
Qed.

(** After an opening brace that has a closing brace behind it, the
    innermost pair encloses text without braces. *)
Lemma innermost_pair (s : string) :
  hasClose s = true ->
  exists pre w post,
    String "{" s = (pre ++ String "{" (w ++ String "}" post))%string
    /\ braceFree w = true.
Proof.
  induction s as [|d r IH]; simpl; intros H; [discriminate|].
  destruct (isClose d) eqn:Hd.
  - apply Ascii.eqb_eq in Hd. subst d.
    exists EmptyString, EmptyString, r. split; reflexivity.
  - simpl in H. destruct (IH H) as (pre & w & post & Heq & Hw).
    destruct (isOpen d) eqn:Ho.
    + apply Ascii.eqb_eq in Ho. subst d.
      exists (String "{" pre), w, post. split; [|exact Hw].
      simpl. now rewrite <- Heq.
    + destruct pre as [|p pre]; simpl in Heq.
      * injection Heq as Hr. exists EmptyString, (String d w), post.
        split; [simpl; now rewrite Hr|].
        simpl. now rewrite Ho, Hd, Hw.
      * injection Heq as Hp Hr. subst p.
        exists (String "{" (String d pre)), w, post.
        split; [simpl; now rewrite Hr | exact Hw].
Qed.

Lemma openThenClose_pair (s : string) :
  openThenClose s = true ->
  exists pre w post,
    s = (pre ++ String "{" (w ++ String "}" post))%string
    /\ braceFree w = true.
Proof.
  induction s as [|c s IH]; simpl; intros H; [discriminate|].
  destruct (isOpen c) eqn:Ho.
  - apply Ascii.eqb_eq in Ho. subst c. now apply innermost_pair.
  - destruct (IH H) as (pre & w & post & Heq & Hw).
    exists (String c pre), w, post. split; [simpl; now rewrite Heq | exact Hw].
Qed.

(** A reply holds a balanced [{...}] substring exactly when one of its
    opening braces has a closing brace after it. *)
Lemma holdsBalanced_iff (s : string) :
  holdsBalanced s <-> openThenClose s = true.
Proof.
  split.
  - intros (pre & t & post & Hs & w & _ & Ht). subst s t.
    simpl. rewrite append_assoc. apply openThenClose_found.
  - intros H. destruct (openThenClose_pair s H) as (pre & w & post & Hs & Hw).
    exists pre, (String "{" (w ++ "}")), post. split.
    + rewrite Hs. simpl. now rewrite append_assoc.
    + exists w. split; [now apply braceFree_balanced | reflexivity].
Qed.

Lemma unbalanced_no_match (s : string) :
  ~ holdsBalanced s -> jsonMatch s = None.
Proof.
  intros H. apply jsonMatch_none.
  destruct (openThenClose s) eqn:Hs; [|reflexivity].
  exfalso. apply H. now apply holdsBalanced_iff.
Qed.

Lemma firstBalanced_none_iff (s : string) :
  firstBalanced s = None <-> ~ holdsBalanced s.
Proof.
  rewrite firstBalanced_none, holdsBalanced_iff.
  destruct (openThenClose s); split; intros H; congruence.
Qed.







(** ** The batch loop *)

Lemma count_zero {A : Type} (l : list A) : (count l =? 0) = true <-> l = [].
Proof.
  unfold count. destruct l; simpl; split; intros H;
    try reflexivity; discriminate.
Qed.

Section Loop.

Variable W : World.
Variable target : TargetSpec.

Lemma runBatch_appends (st : Progress) (i : nat) (b : list SourceFile) :
  converted (runBatch W target st i b)
  = converted st ++ batchOutput W target i b
  /\ batchResults (runBatch W target st i b)
     = batchResults st ++ [batchOutcome W target i b].
Proof.
  unfold runBatch, batchOutput, batchOutcome.
  destruct (convertBatch W b target (Z.of_nat i + 1)); split; reflexivity.
Qed.

Lemma runBatches_converted (bs : list (list SourceFile)) :
  forall i st,
    converted (runBatches W target i bs st)
    = converted st ++ concat (outputsFrom W target i bs).
Proof.
  induction bs as [|b bs IH]; intros i st; simpl.
  - now rewrite app_nil_r.
  - rewrite IH. destruct (runBatch_appends st i b) as [Hc _].
    now rewrite Hc, app_assoc.
Qed.

Lemma runBatches_results (bs : list (list SourceFile)) :
  forall i st,
    batchResults (runBatches W target i bs st)
    = batchResults st ++ outcomesFrom W target i bs.
Proof.
  induction bs as [|b bs IH]; intros i st; simpl.
  - now rewrite app_nil_r.
  - rewrite IH. destruct (runBatch_appends st i b) as [_ Hr].
    now rewrite Hr, <- app_assoc.
Qed.

Lemma outcomesFrom_nth (bs : list (list SourceFile)) :
  forall i k b,
    nth_error bs k = Some b ->
    nth_error (outcomesFrom W target i bs) k
    = Some (batchOutcome W target (i + k) b).
Proof.
  induction bs as [|x bs IH]; intros i k b Hk.
  - destruct k; discriminate.
  - destruct k as [|k]; simpl in *.
    + injection Hk as ->. now rewrite Nat.add_0_r.
    + rewrite (IH (S i) k b Hk). now rewrite Nat.add_succ_r.
Qed.

Lemma outputsFrom_nth (bs : list (list SourceFile)) :
  forall i k b,
    nth_error bs k = Some b ->
    exists before after,
      concat (outputsFrom W target i bs)
      = before ++ batchOutput W target (i + k) b ++ after.
Proof.
  induction bs as [|x bs IH]; intros i k b Hk.
  - destruct k; discriminate.
  - destruct k as [|k]; simpl in *.
    + injection Hk as ->. rewrite Nat.add_0_r.
      exists [], (concat (outputsFrom W target (S i) bs)). reflexivity.
    + destruct (IH (S i) k b Hk) as (before & after & Heq).
      exists (batchOutput W target i x ++ before), after.
      rewrite Heq, <- app_assoc. now rewrite Nat.add_succ_r.
Qed.

Lemma outputsFrom_origin (bs : list (list SourceFile)) :
  forall i f,
    In f (concat (outputsFrom W target i bs)) ->
    exists b j, In b bs /\ In f (batchOutput W target j b).
Proof.
  induction bs as [|x bs IH]; intros i f Hin; simpl in Hin.
  - contradiction.
  - apply in_app_or in Hin. destruct Hin as [Hx|Hrest].
    + exists x, i. split; [now left | exact Hx].
    + destruct (IH _ _ Hrest) as (b & j & Hb & Hf).
      exists b, j. split; [now right | exact Hf].
Qed.

(** The engine returns at least one file or throws. *)
Lemma convertBatch_returns_files (b : list SourceFile) (i : Z)
      (validFiles : list json) :
  convertBatch W b target i = Ok validFiles ->
  validFiles <> [] /\ Forall (fun f => validEntry f = true) validFiles.
Proof.
  unfold convertBatch.
  destruct (missing (OPENROUTER_KEY W)); [discriminate|].
  destruct (openrouter W b target i); try discriminate.
  destruct (parseReply W aiResponse); [|discriminate].
  destruct (filesArray a) as [files|]; [|discriminate].
  destruct (Z.of_nat (length (filter validEntry files)) =? 0) eqn:Hz;
    [discriminate|].
  intros H. injection H as <-. split.
  - intros Hnil. rewrite Hnil in Hz. discriminate.
  - apply Forall_forall. intros f Hf. apply filter_In in Hf. tauto.
Qed.

Lemma batchOutput_nonempty (i : nat) (b : list SourceFile) :
  b <> [] -> batchOutput W target i b <> [].
Proof.
  intros Hb. unfold batchOutput.
  destruct (convertBatch W b target (Z.of_nat i + 1)) eqn:Hc.
  - apply (convertBatch_returns_files _ _ _ Hc).
  - destruct b; [contradiction | discriminate].
Qed.

Lemma outputsFrom_nonempty (bs : list (list SourceFile)) (i : nat) :
  bs <> [] -> Forall (fun b => b <> []) bs ->
  concat (outputsFrom W target i bs) <> [].
Proof.
  destruct bs as [|b bs]; [contradiction|]. intros _ Hall. simpl.
  inversion Hall as [|? ? Hb _]; subst.
  pose proof (batchOutput_nonempty i b Hb) as Hout.
  destruct (batchOutput W target i b); [contradiction | discriminate].
Qed.

(** A reply that is not JSON and holds no balanced braces makes the
    engine throw its "no JSON" error. *)
Lemma convertBatch_malformed (b : list SourceFile) (i : Z)
      (aiResponse e : string) :
  missing (OPENROUTER_KEY W) = false ->
  openrouter W b target i = completed aiResponse ->
  JSON_parse W aiResponse = Throw e ->
  ~ holdsBalanced aiResponse ->
  convertBatch W b target i
  = Throw "AI response does not contain valid JSON".
Proof.
  intros Hkey Hreply Hparse Hbal.
  apply unbalanced_no_match in Hbal.
  unfold convertBatch, parseReply.
  now rewrite Hkey, Hreply, Hparse, Hbal.
Qed.

End Loop.

(** ** The fetcher and the handler *)

Lemma fetched_origin (W : World) (token owner repo branch : string)
      (l : list TreeEntry) (f : SourceFile) :
  In f (fetched (map (fetchOne W token owner repo branch) l)) ->
  exists n, In n l /\ fetchOne W token owner repo branch n = Some f.
Proof.
  induction l as [|n l IH]; simpl; [contradiction|].
  destruct (fetchOne W token owner repo branch n) as [g|] eqn:Hn.
  - intros [Heq|Hin].
    + subst g. exists n. split; [now left | exact Hn].
    + destruct (IH Hin) as (m & Hm & Hf). exists m. split; [now right | exact Hf].
  - intros Hin. destruct (IH Hin) as (m & Hm & Hf).
    exists m. split; [now right | exact Hf].
Qed.

Lemma fetchFiles_tiered (W : World) (token owner repo branch : string)
      (originals : list SourceFile) :
  fetchFiles W token owner repo branch = Ok originals ->
  Forall tiered originals.
Proof.
  unfold fetchFiles.
  destruct (ghBranchSha W token owner repo branch) as [sha|]; [|discriminate].
  destruct (missing sha); [discriminate|].
  destruct (ghTree W token owner repo _) as [tree|]; [|discriminate].
  intros H. injection H as <-.
  apply Forall_forall. intros f Hf.
  apply in_concat in Hf. destruct Hf as (chunk & Hchunk & Hf).
  apply in_map_iff in Hchunk. destruct Hchunk as (batch & <- & _).
  apply fetched_origin in Hf. destruct Hf as (n & _ & Hn).
  unfold fetchOne in Hn.
  destruct (ghContent W token owner repo branch (entryPath n)); [|discriminate].
  destruct (Str.len a >? 100000); [discriminate|].
  injection Hn as <-. unfold tiered. simpl. apply getFilePriority_range.
Qed.


Lemma planBatches_nonempty (originals : list SourceFile) :
  Forall tiered originals -> originals <> [] ->
  planBatches originals <> [] /\ Forall (fun b => b <> []) (planBatches originals).
Proof.
  intros Ht Hne. split.
  - intros Hnil.
    pose proof (fileGroups_permutation originals Ht) as Hperm.
    pose proof (greedy_concat _ contentLength sizeLimit
                  (concat (fileGroups originals))) as Hcat.
    unfold planBatches in Hnil. rewrite Hnil in Hcat.
    rewrite <- Hcat in Hperm. simpl in Hperm.
    apply Permutation_nil in Hperm. contradiction.
  - unfold planBatches.
    pose proof (greedy_batches_ok _ contentLength sizeLimit
                  (concat (fileGroups originals))) as Hall.
    eapply Forall_impl; [|exact Hall]. intros b Hb. apply Hb.
Qed.

Lemma convert_valid (W : World) (req : Request) (tgt : TargetSpec) :
  requestTarget req = Some tgt ->
  convert W req
  = match fetchOf W req with
    | Throw m => mkResponse 500 (errorBody m)
    | Ok originals =>
        if count originals =? 0
        then mkResponse 200 (noFilesBody "No relevant files found in repository")
        else respond tgt originals
               (runBatches W tgt 0 (planBatches originals)
                           (mkProgress [] [] []))
    end.
Proof.
  unfold requestTarget, convert, fetchOf.
  destruct (missing (token req) || missing (owner req) || missing (repo req)
            || missing (branch req)); [discriminate|].
  destruct (target req) as [t|]; [|discriminate].
  destruct (String.eqb (language t) "" || String.eqb (framework t) ""
            || String.eqb (database t) ""); [discriminate|].
  intros H. injection H as <-. reflexivity.
Qed.

Lemma convert_invalid (W : World) (req : Request) :
  requestTarget req = None -> statusCode (convert W req) = 400.
Proof.
  unfold requestTarget, convert.
  destruct (missing (token req) || missing (owner req) || missing (repo req)
            || missing (branch req)); [reflexivity|].
  destruct (target req) as [t|]; [|reflexivity].
  destruct (String.eqb (language t) "" || String.eqb (framework t) ""
            || String.eqb (database t) ""); [reflexivity | discriminate].
Qed.

Lemma converted_of_run (W : World) (target : TargetSpec)
      (originals : list SourceFile) :
  converted (runBatches W target 0 (planBatches originals)
                        (mkProgress [] [] []))
  = concat (outputsFrom W target 0 (planBatches originals)).
Proof. now rewrite runBatches_converted. Qed.

(** ** The run of a request *)

Lemma filter_hit {A : Type} (f : A -> bool) (l : list A) (k : nat) (x : A) :
  nth_error l k = Some x -> f x = true -> (count (filter f l) >? 0) = true.
Proof.
  intros Hk Hx.
  assert (Hin : In x (filter f l)).
  { apply filter_In. split; [eapply nth_error_In; exact Hk | exact Hx]. }
  unfold count. destruct (filter f l); [contradiction | reflexivity].
Qed.

(** C4: a batch whose reply is not JSON and holds no balanced [{...}] is
    recorded with status [fallback] and the error the engine threw, its
    stubs are in the files of the result, and the run ends in the success
    response (with the warnings block): nothing is thrown out of the batch
    loop. *)
Theorem malformed_reply_becomes_fallback
        (W : World) (req : Request) (tgt : TargetSpec)
        (originals : list SourceFile) (k : nat) (b : list SourceFile)
        (aiResponse e : string)
        (Hreq : requestTarget req = Some tgt)
        (Hfetch : fetchOf W req = Ok originals)
        (Hbatch : nth_error (planBatches originals) k = Some b)
        (Hkey : missing (OPENROUTER_KEY W) = false)
        (Hreply : openrouter W b tgt (Z.of_nat k + 1) = completed aiResponse)
        (Hparse : JSON_parse W aiResponse = Throw e)
        (Hbal : ~ holdsBalanced aiResponse) :
  exists files summary warnings,
    convert W req = mkResponse 200 (convertedBody files summary (Some warnings))
    /\ nth_error (batchResultsOf summary) k
       = Some (mkBatchResult (Z.of_nat k + 1) "fallback"
                 (Some "AI response does not contain valid JSON") (count b))
    /\ exists before after,
         files = before ++ createFallbackFiles b tgt ++ after.
Proof.
  pose proof (convertBatch_malformed W tgt b _ _ _ Hkey Hreply Hparse Hbal)
    as Hthrow.
  assert (Hout : batchOutcome W tgt k b
                 = mkBatchResult (Z.of_nat k + 1) "fallback"
                     (Some "AI response does not contain valid JSON")
                     (count b)).
  { unfold batchOutcome. rewrite Hthrow. unfold createFallbackFiles, count.
    now rewrite length_map. }
  assert (Hnth : nth_error (outcomesFrom W tgt 0 (planBatches originals)) k
                 = Some (batchOutcome W tgt k b)).
  { apply (outcomesFrom_nth W tgt _ 0 k b Hbatch). }
  rewrite (convert_valid W req tgt Hreq), Hfetch.
  destruct (count originals =? 0) eqn:Hzero.
  { apply count_zero in Hzero. subst originals.
    destruct k; discriminate Hbatch. }
  unfold respond.
  rewrite runBatches_results, runBatches_converted. simpl app.
  rewrite (filter_hit _ _ k _ Hnth) by (now rewrite Hout).
  do 3 eexists. split; [reflexivity|]. split.
  - simpl. now rewrite Hnth, Hout.
  - destruct (outputsFrom_nth W tgt _ 0 k b Hbatch) as (before & after & Heq).
    exists before, after. rewrite Heq. simpl.
    unfold batchOutput. now rewrite Hthrow.
Qed.

Lemma malformed_reply_becomes_fallback_witness :
  let W := Sample.world Sample.readable (completed Sample.refusal) in
  exists files summary warnings,
    convert W Sample.request
    = mkResponse 200 (convertedBody files summary (Some warnings))
    /\ map status (batchResultsOf summary) = ["fallback"]
    /\ length files = 3%nat.
Proof.
  cbv zeta.
  destruct (malformed_reply_becomes_fallback
              (Sample.world Sample.readable (completed Sample.refusal))
              Sample.request Sample.python
              Sample.fetchedFiles 0%nat Sample.fetchedFiles
              Sample.refusal "Unexpected token in JSON"
              eq_refl eq_refl eq_refl eq_refl eq_refl eq_refl
              (proj1 (firstBalanced_none_iff Sample.refusal) eq_refl))
    as (files & summary & warnings & Hrun & _ & _).
  exists files, summary, warnings. split; [exact Hrun|].
  vm_compute in Hrun. injection Hrun as <- <- _. split; reflexivity.
Defined.

(** C1, as the claim states it, fails: the tree holds a file the selector
    accepts, every content request is refused, and the route answers with
    a success whose files are empty. *)
Lemma empty_success_when_no_file_could_be_fetched :
  let W := Sample.world Sample.unreadable (completed Sample.invented) in
  (exists n, In n Sample.tree /\ selectable n)
  /\ isError (convert W Sample.request) = false
  /\ filesOf (convert W Sample.request) = Some [].
Proof.
  cbv zeta. split.
  - exists (mkEntry "src/app.ts" "blob"). split.
    + right. left. reflexivity.
    + split; reflexivity.
  - split; reflexivity.
Qed.

(** C1, amended: the answer of the route is an error, or a success whose
    files are empty exactly when the fetch returned no file (which also
    happens when files were selected and none could be fetched); once one
    file is fetched, a success holds at least one file.  The earlier
    revision answers likewise. *)
Theorem success_is_empty_only_when_nothing_fetched
        (W : World) (V : ConvertSimple.World) (req : Request) :
  (isError (convert W req) = true
   \/ exists files,
        filesOf (convert W req) = Some files
        /\ (files = [] <-> fetchOf W req = Ok []))
  /\ (ConvertSimple.isError (ConvertSimple.convert V req) = true
      \/ exists files,
           ConvertSimple.filesOf (ConvertSimple.convert V req) = Some files
           /\ (files = [] <-> simpleFetchOf V req = Ok [])).
Proof.
  split.
  - destruct (requestTarget req) as [tgt|] eqn:Hreq.
    + rewrite (convert_valid W req tgt Hreq).
      destruct (fetchOf W req) as [originals|m] eqn:Hfetch.
      * destruct (count originals =? 0) eqn:Hzero.
        -- apply count_zero in Hzero. subst originals.
           right. exists []. split; [reflexivity | tauto].
        -- right. unfold respond, filesOf. simpl.
           eexists. split; [reflexivity|].
           assert (Hne : originals <> []).
           { intros ->. discriminate. }
           pose proof (fetchFiles_tiered _ _ _ _ _ _ Hfetch) as Ht.
           destruct (planBatches_nonempty originals Ht Hne) as [Hb Hall].
           rewrite converted_of_run. split.
           ++ intros Hnil. exfalso.
              apply (outputsFrom_nonempty W tgt _ 0%nat Hb Hall Hnil).
           ++ intros H. injection H as ->. contradiction.
      * left. reflexivity.
    + left. unfold isError. now rewrite (convert_invalid W req Hreq).
  - unfold ConvertSimple.convert, simpleFetchOf.
    destruct (missing (token req) || missing (owner req) || missing (repo req)
              || missing (branch req)); [left; reflexivity|].
    destruct (target req) as [t|]; [|left; reflexivity].
    destruct (String.eqb (language t) "" || String.eqb (framework t) ""
              || String.eqb (database t) ""); [left; reflexivity|].
    destruct (ConvertSimple.fetchFiles V _ _ _ _) as [originals|m].
    + destruct (count originals =? 0) eqn:Hzero.
      * apply count_zero in Hzero. subst originals.
        right. exists []. split; [reflexivity | tauto].
      * unfold ConvertSimple.respond.
        destruct (count (ConvertSimple.converted _) =? 0) eqn:Hconv.
        -- left. reflexivity.
        -- right. eexists. split; [reflexivity|]. split.
           ++ intros Hnil. rewrite Hnil in Hconv. discriminate.
           ++ intros H. injection H as ->. discriminate.
    + left. reflexivity.
Qed.








(** * Further properties of the code *)

(** ** The planning loop *)

Section GreedyShapeFacts.

Variable A : Type.
Variable size : A -> Z.
Variable limit : Z.

Lemma tight_extend_last (l : list (list A)) (x : A) (cur : list A) (f : A) :
  tight size limit (l ++ [x :: cur]) ->
  tight size limit (l ++ [(x :: cur) ++ [f]]).
Proof.
  induction l as [|b l IH]; simpl; intros H.
  - exact H.
  - destruct H as [Hb Hrest]. split; [|exact (IH Hrest)].
    destruct l; exact Hb.
Qed.

Lemma tight_close (l : list (list A)) (cur : list A) (f : A) :
  batchSize size cur + size f > limit ->
  tight size limit (l ++ [cur]) ->
  tight size limit ((l ++ [cur]) ++ [[f]]).
Proof.
  intros Hover. induction l as [|b l IH]; simpl; intros H.
  - repeat split. exact Hover.
  - destruct H as [Hb Hrest]. split; [|exact (IH Hrest)].
    destruct l; exact Hb.
Qed.

(** What the loop keeps true of the batches closed so far and the open
    one. *)
Lemma planLoop_tight (files : list A) :
  forall st,
    currentSize st = batchSize size (currentBatch st) ->
    (currentBatch st = [] /\ batches st = []
     \/ currentBatch st <> []
        /\ tight size limit (batches st ++ [currentBatch st])) ->
    tight size limit (planClose (fold_left (planFile size limit) files st)).
Proof.
  induction files as [|f files IH]; intros st Hsize Hst; simpl.
  - unfold planClose.
    destruct Hst as [[Hc Hb]|[Hc Ht]].
    + rewrite Hc, Hb. simpl. exact I.
    + destruct (currentBatch st); [contradiction | exact Ht].
  - apply IH.
    + unfold planFile.
      destruct ((currentSize st + size f >? limit)
                && (Z.of_nat (length (currentBatch st)) >? 0)); simpl.
      * lia.
      * rewrite batchSize_snoc. lia.
    + right. unfold planFile.
      destruct ((currentSize st + size f >? limit)
                && (Z.of_nat (length (currentBatch st)) >? 0)) eqn:Htest;
        simpl.
      * split; [discriminate|].
        apply andb_true_iff in Htest. destruct Htest as [Hover Hne].
        apply nonempty_count in Hne.
        destruct Hst as [[Hc _]|[_ Ht]]; [contradiction|].
        apply tight_close; [|exact Ht].
        apply Z.gtb_lt in Hover. lia.
      * destruct Hst as [[Hc Hb]|[Hc Ht]].
        -- rewrite Hc, Hb. simpl. split; [discriminate | tauto].
        -- split; [now destruct (currentBatch st)|].
           destruct (currentBatch st) as [|x cur]; [contradiction|].
           now apply tight_extend_last.
Qed.

Lemma greedy_tight (files : list A) :
  tight size limit (greedyBatches size limit files).
Proof.
  apply planLoop_tight; simpl; auto.
Qed.

Lemma tight_adjacent (pre : list (list A)) (b c : list A)
      (post : list (list A)) :
  tight size limit (pre ++ b :: c :: post) -> overflows size limit b c.
Proof.
  induction pre as [|p pre IH]; simpl.
  - tauto.
  - intros [_ H]. exact (IH H).
Qed.

Hypothesis size_nonneg : forall x, 0 <= size x.

Lemma batchSize_nonneg (b : list A) : 0 <= batchSize size b.
Proof.
  unfold batchSize. induction b as [|x b IH]; simpl; [lia|].
  pose proof (size_nonneg x). lia.
Qed.

Lemma batchSize_member (b : list A) (f : A) :
  In f b -> size f <= batchSize size b.
Proof.
  induction b as [|x b IH]; simpl; [contradiction|].
  intros [->|Hin].
  - pose proof (batchSize_nonneg b). unfold batchSize in *. lia.
  - pose proof (IH Hin). pose proof (size_nonneg x).
    unfold batchSize in *. lia.
Qed.

Lemma planLoop_fits (files : list A) :
  forall cur,
    batchSize size cur + batchSize size files <= limit ->
    fold_left (planFile size limit) files
              (mkPlanner [] cur (batchSize size cur))
    = mkPlanner [] (cur ++ files) (batchSize size (cur ++ files)).
Proof.
  induction files as [|f files IH]; intros cur Hfit; simpl.
  - now rewrite app_nil_r.
  - assert (Hstep : planFile size limit
                      (mkPlanner [] cur (batchSize size cur)) f
                    = mkPlanner [] (cur ++ [f]) (batchSize size (cur ++ [f]))).
    { unfold planFile. simpl.
      replace (batchSize size cur + size f >? limit) with false.
      - simpl. now rewrite batchSize_snoc.
      - symmetry. rewrite Z.gtb_ltb. apply Z.ltb_ge.
        pose proof (batchSize_nonneg files).
        change (batchSize size (f :: files))
          with (size f + batchSize size files) in Hfit. lia. }
    rewrite Hstep, IH.
    + now rewrite <- app_assoc.
    + rewrite batchSize_snoc.
      change (batchSize size (f :: files))
        with (size f + batchSize size files) in Hfit. lia.
Qed.

End GreedyShapeFacts.

(** A batch is closed only on a file that would not fit: the content of
    a batch and of the first file of the next batch together exceed the
    limit. *)
Theorem batch_closed_only_on_overflow
        (A : Type) (size : A -> Z) (limit : Z) (files : list A)
        (pre : list (list A)) (b : list A) (f : A) (rest : list A)
        (post : list (list A))
        (Hplan : greedyBatches size limit files
                 = pre ++ b :: (f :: rest) :: post) :
  batchSize size b + size f > limit.
Proof.
  pose proof (greedy_tight A size limit files) as Ht.
  rewrite Hplan in Ht.
  exact (tight_adjacent A size limit pre b (f :: rest) post Ht).
Qed.

Lemma batch_closed_only_on_overflow_witness :
  batchSize contentLength [Sample.manifest] + contentLength Sample.entry > 10.
Proof.
  apply (batch_closed_only_on_overflow SourceFile contentLength 10
           [Sample.manifest; Sample.entry; Sample.readme]
           [] [Sample.manifest] Sample.entry [] [[Sample.readme]]).
  reflexivity.
Defined.

(** Files that fit the limit together are planned as one batch, in
    their order. *)
Theorem files_that_fit_make_one_batch
        (A : Type) (size : A -> Z) (limit : Z) (files : list A)
        (Hsize : forall x, 0 <= size x)
        (Hsome : files <> [])
        (Hfit : batchSize size files <= limit) :
  greedyBatches size limit files = [files].
Proof.
  unfold greedyBatches, plannerStart.
  change 0 with (batchSize size (@nil A)) at 1.
  rewrite (planLoop_fits A size limit Hsize files []) by (simpl; lia).
  unfold planClose. simpl.
  destruct files; [contradiction | reflexivity].
Qed.

Lemma contentLength_nonneg (f : SourceFile) : 0 <= contentLength f.
Proof. unfold contentLength, Str.len. lia. Qed.

Lemma files_that_fit_make_one_batch_witness :
  greedyBatches contentLength sizeLimit
                [Sample.manifest; Sample.entry; Sample.readme]
  = [[Sample.manifest; Sample.entry; Sample.readme]].
Proof.
  apply (files_that_fit_make_one_batch SourceFile contentLength sizeLimit).
  - exact contentLength_nonneg.
  - discriminate.
  - vm_compute. discriminate.
Defined.

(** A file whose content alone exceeds the limit is never put in a batch
    with another file. *)
Theorem oversized_file_is_alone
        (A : Type) (size : A -> Z) (limit : Z) (files : list A)
        (b : list A) (f : A)
        (Hsize : forall x, 0 <= size x)
        (Hb : In b (greedyBatches size limit files))
        (Hf : In f b)
        (Hbig : size f > limit) :
  b = [f].
Proof.
  pose proof (greedy_batches_ok A size limit files) as Hall.
  rewrite Forall_forall in Hall. destruct (Hall b Hb) as [_ [Hle|Hone]].
  - pose proof (batchSize_member A size Hsize b f Hf). lia.
  - destruct Hone as (g & -> & _). destruct Hf as [->|[]]. reflexivity.
Qed.

Lemma oversized_file_is_alone_witness :
  [Sample.entry] = [Sample.entry].
Proof.
  apply (oversized_file_is_alone SourceFile contentLength 10
           [Sample.manifest; Sample.entry; Sample.readme]
           [Sample.entry] Sample.entry).
  - exact contentLength_nonneg.
  - right. left. reflexivity.
  - left. reflexivity.
  - vm_compute. reflexivity.
Defined.

Lemma nonempty_parts_count {A : Type} (bs : list (list A)) :
  Forall (fun b => b <> []) bs -> (length bs <= length (concat bs))%nat.
Proof.
  induction 1 as [|b bs Hb _ IH]; simpl; [lia|].
  rewrite length_app. destruct b; [contradiction | simpl; lia].
Qed.

(** The planner makes no batch of no file and at most one batch per
    file; no batch is empty. *)
Theorem batch_count_bounds
        (A : Type) (size : A -> Z) (limit : Z) (files : list A) :
  greedyBatches size limit [] = []
  /\ (length (greedyBatches size limit files) <= length files)%nat
  /\ (files <> [] -> greedyBatches size limit files <> [])
  /\ Forall (fun b => b <> []) (greedyBatches size limit files).
Proof.
  assert (Hne : Forall (fun b => b <> []) (greedyBatches size limit files)).
  { eapply Forall_impl; [|apply greedy_batches_ok]. intros b Hb. apply Hb. }
  split; [reflexivity|]. split; [|split; [|exact Hne]].
  - rewrite <- (greedy_concat A size limit files) at 2.
    now apply nonempty_parts_count.
  - intros Hsome Hnil.
    pose proof (greedy_concat A size limit files) as Hcat.
    rewrite Hnil in Hcat. simpl in Hcat. congruence.
Qed.

(** ** The selector *)

Lemma existsb_incl {A : Type} (f : A -> bool) (l l' : list A) :
  incl l l' -> existsb f l = true -> existsb f l' = true.
Proof.
  intros Hincl H. apply existsb_exists in H. destruct H as (x & Hx & Hfx).
  apply existsb_exists. exists x. split; [exact (Hincl x Hx) | exact Hfx].
Qed.

Lemma code_extensions_relevant :
  incl ConvertSimple.codeExtensionList relevantExtensionList.
Proof.
  intros x Hx. unfold ConvertSimple.codeExtensionList in Hx.
  unfold relevantExtensionList. simpl in *.
  repeat (destruct Hx as [<-|Hx]; [tauto|]). contradiction.
Qed.

(** The selector of the later route accepts every path the earlier one
    accepts, unless one of its skip patterns matches. *)
Theorem code_files_stay_relevant (p : string)
        (Hcode : ConvertSimple.isCodeFile p = true)
        (Hkept : skipped p = false) :
  isRelevantFile p = true.
Proof.
  unfold isRelevantFile. rewrite Hkept.
  unfold relevantExtensions, ConvertSimple.isCodeFile in *.
  rewrite (existsb_incl _ _ _ code_extensions_relevant Hcode).
  reflexivity.
Qed.

Lemma code_files_stay_relevant_witness :
  isRelevantFile "src/Server.TSX" = true.
Proof.
  apply code_files_stay_relevant; reflexivity.
Defined.

Lemma includes_suffix (sub a b : string) :
  Str.includes sub b = true -> Str.includes sub (a ++ b) = true.
Proof.
  intros Hb. induction a as [|c a IH]; simpl.
  - exact Hb.
  - change ((a ++ b)%string) with (String.append a b).
    rewrite IH. apply orb_true_r.
Qed.

Lemma toLowerCase_append (a b : string) :
  Str.toLowerCase (a ++ b) = (Str.toLowerCase a ++ Str.toLowerCase b)%string.
Proof.
  induction a as [|c a IH]; simpl; [reflexivity | now rewrite IH].
Qed.

Lemma split_cons (sep : ascii) (s : string) :
  exists h t, Str.split sep s = h :: t.
Proof.
  destruct s as [|c s]; simpl.
  - now exists EmptyString, [].
  - destruct (Ascii.eqb c sep); [now eexists; eexists|].
    destruct (Str.split sep s); now eexists; eexists.
Qed.

Lemma split_single (sep : ascii) (s : string) :
  forall h, Str.split sep s = [h] -> s = h.
Proof.
  induction s as [|c s IH]; simpl; intros h Hs.
  - now injection Hs.
  - destruct (Ascii.eqb c sep).
    + destruct (split_cons sep s) as (h0 & t0 & H0).
      rewrite H0 in Hs. discriminate.
    + destruct (split_cons sep s) as (h0 & t0 & H0).
      rewrite H0 in *. injection Hs as <- ->. now rewrite (IH h0 eq_refl).
Qed.

(** The last part of a split is a suffix of the string. *)
Lemma last_of_split (sep : ascii) (s : string) :
  exists pre, s = (pre ++ last (Str.split sep s) EmptyString)%string.
Proof.
  induction s as [|c s IH].
  - exists EmptyString. reflexivity.
  - destruct IH as (pre & Hpre).
    destruct (split_cons sep s) as (h & t & Hs).
    simpl. destruct (Ascii.eqb c sep).
    + exists (String c pre). rewrite Hs in *. simpl. now rewrite Hpre at 1.
    + rewrite Hs in *. destruct t as [|h' t'].
      * exists EmptyString. simpl. now rewrite (split_single sep s h Hs).
      * exists (String c pre). simpl in *. now rewrite Hpre at 1.
Qed.

Lemma fileNameOf_last (p : string) :
  fileNameOf p = last (Str.split "/" p) EmptyString.
Proof.
  unfold fileNameOf, Str.lastOf.
  destruct (split_cons "/" p) as (h & t & Hs). now rewrite Hs.
Qed.

Lemma tier_le (a1 a2 b1 b2 : bool) :
  (b1 = true -> a1 = true) -> (b2 = true -> a2 = true) ->
  (if a1 then 1 else if a2 then 2 else 3)
  <= (if b1 then 1 else if b2 then 2 else 3).
Proof.
  destruct a1, a2, b1, b2; intros H1 H2; try lia;
    try (discriminate (H1 eq_refl)); discriminate (H2 eq_refl).
Qed.

(** [getFilePriority] looks for its markers in the whole path, so a
    directory can only move a file to an earlier tier than its file name
    alone would: the priority of a path is never behind that of its file
    name, and is the same for a path without directory. *)
Theorem directories_only_raise_priority (p : string) :
  getFilePriority p <= priorityOfFileName p
  /\ (Str.includes "/" p = false -> getFilePriority p = priorityOfFileName p).
Proof.
  split.
  - destruct (last_of_split "/" p) as (pre & Hpre).
    rewrite <- fileNameOf_last in Hpre.
    assert (Hlow : Str.toLowerCase p
                   = (Str.toLowerCase pre
                      ++ Str.toLowerCase (fileNameOf p))%string).
    { rewrite <- toLowerCase_append, <- Hpre. reflexivity. }
    unfold priorityOfFileName, getFilePriority. rewrite Hlow.
    set (F := Str.toLowerCase (fileNameOf p)).
    set (Q := Str.toLowerCase pre).
    assert (hit : forall m, Str.includes m F = true
                            -> Str.includes m (Q ++ F) = true)
      by (intros m; apply includes_suffix).
    apply tier_le; intros H;
      repeat (apply orb_true_iff in H; destruct H as [H|H]);
      rewrite (hit _ H), ?orb_true_r; reflexivity.
  - intros Hflat. unfold priorityOfFileName.
    rewrite fileNameOf_last, (split_without_separator "/" p Hflat).
    reflexivity.
Qed.

(** ** Sorting and the fetch windows *)

Section SortFacts.

Variable A : Type.
Variable compare : A -> A -> Z.

Lemma insertSorted_perm (x : A) (l : list A) :
  Permutation (insertSorted compare x l) (x :: l).
Proof.
  induction l as [|y t IH]; simpl.
  - apply Permutation_refl.
  - destruct (compare x y <=? 0).
    + apply Permutation_refl.
    + eapply Permutation_trans; [apply perm_skip, IH | apply perm_swap].
Qed.

Lemma sortBy_perm (l : list A) : Permutation (sortBy compare l) l.
Proof.
  induction l as [|x l IH]; simpl.
  - constructor.
  - eapply Permutation_trans; [apply insertSorted_perm|].
    now apply perm_skip.
Qed.

Variable key : A -> Z.
Hypothesis compare_key :
  forall x y, (compare x y <= 0 -> key x <= key y)
              /\ (compare x y > 0 -> key y <= key x).

Lemma insertSorted_sorted (x : A) (l : list A) :
  StronglySorted (fun a b => key a <= key b) l ->
  StronglySorted (fun a b => key a <= key b) (insertSorted compare x l).
Proof.
  induction 1 as [|y t Ht IH Hy]; simpl.
  - constructor; constructor.
  - destruct (compare x y <=? 0) eqn:Hc.
    + apply Z.leb_le in Hc.
      destruct (compare_key x y) as [Hle _]. specialize (Hle Hc).
      constructor; [constructor; assumption|].
      constructor; [exact Hle|].
      eapply Forall_impl; [|exact Hy]. intros z Hz. simpl in Hz. lia.
    + apply Z.leb_gt in Hc.
      destruct (compare_key x y) as [_ Hgt].
      assert (Hyx : key y <= key x) by (apply Hgt; lia).
      constructor; [exact IH|].
      apply Forall_forall. intros z Hz.
      apply (Permutation_in _ (insertSorted_perm x t)) in Hz.
      destruct Hz as [<-|Hz]; [exact Hyx|].
      rewrite Forall_forall in Hy. now apply Hy.
Qed.

Lemma sortBy_sorted (l : list A) :
  StronglySorted (fun a b => key a <= key b) (sortBy compare l).
Proof.
  induction l as [|x l IH]; simpl.
  - constructor.
  - now apply insertSorted_sorted.
Qed.

End SortFacts.

Lemma firstn_sorted {A : Type} (R : A -> A -> Prop) (k : nat) (l : list A) :
  StronglySorted R l -> StronglySorted R (firstn k l).
Proof.
  intros H. revert k.
  induction H as [|x l Hl IH Hx]; intros k.
  - rewrite firstn_nil. constructor.
  - destruct k; simpl; [constructor|].
    constructor; [apply IH|].
    apply Forall_forall. intros z Hz.
    rewrite Forall_forall in Hx. apply Hx.
    rewrite <- (firstn_skipn k l). apply in_or_app. now left.
Qed.

Lemma windowsFrom_concat {A : Type} (n : nat) :
  (0 < n)%nat ->
  forall fuel (l : list A),
    (length l <= fuel)%nat -> concat (windowsFrom fuel n l) = l.
Proof.
  intros Hn. induction fuel as [|k IH]; intros l Hl.
  - destruct l; [reflexivity | simpl in Hl; lia].
  - destruct l as [|x l]; [reflexivity|].
    cbn [windowsFrom concat].
    rewrite IH.
    + apply firstn_skipn.
    + rewrite length_skipn. lia.
Qed.

(** Cutting a list into windows and putting them together again gives
    the list back. *)
Lemma windows_concat {A : Type} (n : nat) (l : list A) :
  (0 < n)%nat -> concat (windows n l) = l.
Proof.
  intros Hn. unfold windows. now apply windowsFrom_concat.
Qed.

Lemma byPriorityThenPath_key (W : World) (x y : TreeEntry) :
  (byPriorityThenPath W x y <= 0
   -> getFilePriority (entryPath x) <= getFilePriority (entryPath y))
  /\ (byPriorityThenPath W x y > 0
      -> getFilePriority (entryPath y) <= getFilePriority (entryPath x)).
Proof.
  unfold byPriorityThenPath.
  destruct (getFilePriority (entryPath x) =? getFilePriority (entryPath y))
    eqn:Heq; simpl.
  - apply Z.eqb_eq in Heq. split; lia.
  - split; lia.
Qed.

Lemma selectFiles_facts (W : World) (tree : list TreeEntry) :
  length (selectFiles W tree) = Nat.min 200 (length (accepted tree))
  /\ (forall n, In n (selectFiles W tree) -> In n tree /\ selectable n)
  /\ StronglySorted entryPriorityLe (selectFiles W tree)
  /\ ((length (accepted tree) <= 200)%nat ->
      Permutation (selectFiles W tree) (accepted tree)).
Proof.
  unfold selectFiles. fold (accepted tree).
  pose proof (sortBy_perm _ (byPriorityThenPath W) (accepted tree)) as Hperm.
  split; [|split; [|split]].
  - rewrite length_firstn, (Permutation_length Hperm). reflexivity.
  - intros n Hn.
    assert (Hacc : In n (accepted tree)).
    { apply (Permutation_in _ Hperm).
      rewrite <- (firstn_skipn 200 (sortBy _ _)).
      apply in_or_app. now left. }
    unfold accepted in Hacc. apply filter_In in Hacc.
    destruct Hacc as [Htree Hok]. apply andb_true_iff in Hok.
    destruct Hok as [Hblob Hrel]. apply String.eqb_eq in Hblob.
    split; [exact Htree | split; assumption].
  - apply firstn_sorted.
    apply (sortBy_sorted _ (byPriorityThenPath W)
             (fun n => getFilePriority (entryPath n))
             (byPriorityThenPath_key W)).
  - intros Hfew. rewrite firstn_all2; [exact Hperm|].
    now rewrite (Permutation_length Hperm).
Qed.

(** Of [n] accepted entries the selector keeps [min 200 n], each a blob
    of the tree that [isRelevantFile] accepts, in the order of their
    priorities (whatever [localeCompare] answers); when at most 200 are
    accepted it keeps them all, each once. *)
Theorem selection_is_sorted_and_capped (W : World) (tree : list TreeEntry) :
  length (selectFiles W tree) = Nat.min 200 (length (accepted tree))
  /\ (forall n, In n (selectFiles W tree) -> In n tree /\ selectable n)
  /\ StronglySorted entryPriorityLe (selectFiles W tree)
  /\ ((length (accepted tree) <= 200)%nat ->
      Permutation (selectFiles W tree) (accepted tree)).
Proof. exact (selectFiles_facts W tree). Qed.

(** ** The fetcher *)

Lemma fetched_length {F : Type} (pick : list (option F) -> list F)
      (Hnil : pick [] = [])
      (Hsome : forall f t, pick (Some f :: t) = f :: pick t)
      (Hnone : forall t, pick (None :: t) = pick t)
      (l : list (option F)) :
  (length (pick l) <= length l)%nat.
Proof.
  induction l as [|[f|] t IH].
  - rewrite Hnil. simpl. lia.
  - rewrite Hsome. simpl. lia.
  - rewrite Hnone. simpl. lia.
Qed.

Section FetchFacts.

Variable W : World.
Variables token owner repo branch : string.

Lemma fetchFiles_of_tree (sha : string) (tree : list TreeEntry) :
  ghBranchSha W token owner repo branch = Ok (Some sha) ->
  sha <> EmptyString ->
  ghTree W token owner repo sha = Ok tree ->
  fetchFiles W token owner repo branch
  = Ok (fetched (map (fetchOne W token owner repo branch)
                     (selectFiles W tree))).
Proof.
  intros Hsha Hne Htree. unfold fetchFiles. rewrite Hsha.
  simpl. apply String.eqb_neq in Hne. rewrite Hne, Htree.
  rewrite <- (windows_concat 10 (selectFiles W tree)) at 2 by lia.
  f_equal. generalize (windows 10 (selectFiles W tree)).
  induction l as [|w l IH]; simpl.
  - reflexivity.
  - rewrite map_app, IH.
    generalize (map (fetchOne W token owner repo branch) w).
    induction l0 as [|[f|] l0 IH0]; simpl; [reflexivity|..].
    + now rewrite IH0.
    + exact IH0.
Qed.

Lemma fetchFiles_tree (originals : list SourceFile) :
  fetchFiles W token owner repo branch = Ok originals ->
  exists sha tree,
    ghBranchSha W token owner repo branch = Ok (Some sha)
    /\ sha <> EmptyString
    /\ ghTree W token owner repo sha = Ok tree
    /\ originals = fetched (map (fetchOne W token owner repo branch)
                                (selectFiles W tree)).
Proof.
  intros Hfetch.
  destruct (ghBranchSha W token owner repo branch) as [[sha|]|m] eqn:Hsha.
  - destruct (String.eqb sha "") eqn:Hne.
    + unfold fetchFiles in Hfetch. rewrite Hsha in Hfetch. simpl in Hfetch.
      rewrite Hne in Hfetch. discriminate.
    + apply String.eqb_neq in Hne.
      destruct (ghTree W token owner repo sha) as [tree|m] eqn:Htree.
      * exists sha, tree. repeat split; try assumption.
        rewrite (fetchFiles_of_tree sha tree Hsha Hne Htree) in Hfetch.
        now injection Hfetch.
      * unfold fetchFiles in Hfetch. rewrite Hsha in Hfetch.
        simpl in Hfetch. apply String.eqb_neq in Hne.
        rewrite Hne, Htree in Hfetch. discriminate.
  - unfold fetchFiles in Hfetch. rewrite Hsha in Hfetch. discriminate.
  - unfold fetchFiles in Hfetch. rewrite Hsha in Hfetch. discriminate.
Qed.

Lemma fetched_sorted (l : list TreeEntry) :
  StronglySorted entryPriorityLe l ->
  StronglySorted priorityLe
    (fetched (map (fetchOne W token owner repo branch) l)).
Proof.
  induction 1 as [|n l Hl IH Hn]; simpl.
  - constructor.
  - destruct (fetchOne W token owner repo branch n) as [f|] eqn:Hf;
      [|exact IH].
    constructor; [exact IH|].
    apply Forall_forall. intros g Hg.
    apply fetched_origin in Hg. destruct Hg as (m & Hm & Hgm).
    rewrite Forall_forall in Hn. specialize (Hn m Hm).
    unfold fetchOne in Hf, Hgm.
    destruct (ghContent W token owner repo branch (entryPath n));
      [|discriminate].
    destruct (Str.len a >? 100000); [discriminate|]. injection Hf as <-.
    destruct (ghContent W token owner repo branch (entryPath m));
      [|discriminate].
    destruct (Str.len a0 >? 100000); [discriminate|]. injection Hgm as <-.
    exact Hn.
Qed.

End FetchFacts.



(** A fetched file is a blob of the tree that the selector accepts and
    whose content could be read; it has at most 100000 code units, its
    [size] is the length of its content and its [priority] that of its
    path; a run fetches at most 200 files. *)
Theorem fetched_files_are_selected_and_bounded
        (W : World) (token owner repo branch : string)
        (originals : list SourceFile)
        (Hfetch : fetchFiles W token owner repo branch = Ok originals) :
  (length originals <= 200)%nat
  /\ forall f, In f originals ->
       size f = Str.len (content f)
       /\ size f <= 100000
       /\ priority f = getFilePriority (path f)
       /\ isRelevantFile (path f) = true
       /\ skipped (path f) = false
       /\ ghContent W token owner repo branch (path f) = Ok (content f).
Proof.
  destruct (fetchFiles_tree W token owner repo branch originals Hfetch)
    as (sha & tree & _ & _ & _ & ->).
  destruct (selectFiles_facts W tree) as (Hlen & Hsel & _).
  split.
  - eapply Nat.le_trans.
    + apply (fetched_length fetched); reflexivity.
    + rewrite length_map, Hlen. apply Nat.le_min_l.
  - intros f Hf. apply fetched_origin in Hf. destruct Hf as (n & Hn & Hfn).
    destruct (Hsel n Hn) as (_ & _ & Hrel).
    unfold fetchOne in Hfn.
    destruct (ghContent W token owner repo branch (entryPath n)) as [d|]
      eqn:Hc; [|discriminate].
    destruct (Str.len d >? 100000) eqn:Hbig; [discriminate|].
    injection Hfn as <-. simpl.
    repeat split; try assumption.
    + rewrite Z.gtb_ltb in Hbig. apply Z.ltb_ge in Hbig. exact Hbig.
    + unfold isRelevantFile in Hrel.
      destruct (skipped (entryPath n)); [discriminate | reflexivity].
Qed.

Lemma fetched_files_are_selected_and_bounded_witness :
  (length Sample.fetchedFiles <= 200)%nat.
Proof.
  exact (proj1 (fetched_files_are_selected_and_bounded
                  (Sample.world Sample.readable (completed Sample.refusal))
                  "gho_token" "acme" "shop" "main" Sample.fetchedFiles
                  eq_refl)).
Defined.

Lemma filter_none {A : Type} (f : A -> bool) (l : list A) :
  Forall (fun x => f x = false) l -> filter f l = [].
Proof.
  induction 1 as [|x l Hx _ IH]; simpl; [reflexivity|].
  now rewrite Hx.
Qed.

Lemma sorted_groups (l : list SourceFile) :
  StronglySorted priorityLe l -> Forall tiered l ->
  concat (fileGroups l) = l.
Proof.
  unfold fileGroups. simpl. rewrite app_nil_r.
  induction 1 as [|x l Hl IH Hx]; intros Ht; [reflexivity|].
  inversion Ht as [|? ? Hxt Hlt]; subst.
  specialize (IH Hlt).
  assert (Hlow : forall k, k < priority x ->
                 filter (fun f => priority f =? k) l = []).
  { intros k Hk. apply filter_none.
    eapply Forall_impl; [|exact Hx]. intros y Hy. unfold priorityLe in Hy.
    apply Z.eqb_neq. lia. }
  simpl. destruct Hxt as [H|[H|H]]; rewrite H in *; simpl.
  - now rewrite IH.
  - rewrite (Hlow 1) in * by lia. simpl in *. now rewrite IH.
  - rewrite (Hlow 1), (Hlow 2) in * by lia. simpl in *. now rewrite IH.
Qed.

Lemma fetched_order
      (W : World) (token owner repo branch : string)
      (originals : list SourceFile)
      (Hfetch : fetchFiles W token owner repo branch = Ok originals) :
  StronglySorted priorityLe originals
  /\ concat (fileGroups originals) = originals
  /\ concat (planBatches originals) = originals.
Proof.
  assert (Hsorted : StronglySorted priorityLe originals).
  { destruct (fetchFiles_tree W token owner repo branch originals Hfetch)
      as (sha & tree & _ & _ & _ & ->).
    apply fetched_sorted.
    apply (selectFiles_facts W tree). }
  pose proof (sorted_groups originals Hsorted
                (fetchFiles_tiered _ _ _ _ _ _ Hfetch)) as Hgroups.
  split; [exact Hsorted|]. split; [exact Hgroups|].
  unfold planBatches. now rewrite greedy_concat.
Qed.

(** The fetched files come in the order of their priorities, so the
    grouping by tier does not move any of them: the batches of a run,
    one after the other, hold the fetched files in the order they were
    fetched. *)
Theorem batches_keep_fetch_order
        (W : World) (token owner repo branch : string)
        (originals : list SourceFile)
        (Hfetch : fetchFiles W token owner repo branch = Ok originals) :
  StronglySorted priorityLe originals
  /\ concat (fileGroups originals) = originals
  /\ concat (planBatches originals) = originals.
Proof. exact (fetched_order W token owner repo branch originals Hfetch). Qed.

Lemma batches_keep_fetch_order_witness :
  concat (planBatches Sample.fetchedFiles) = Sample.fetchedFiles.
Proof.
  exact (proj2 (proj2 (batches_keep_fetch_order
                  (Sample.world Sample.readable (completed Sample.refusal))
                  "gho_token" "acme" "shop" "main" Sample.fetchedFiles
                  eq_refl))).
Defined.

(** ** The answers of the later route *)

Lemma isFallback_stub (s : SourceFile) (tgt : TargetSpec) :
  isFallback (fallbackFile s tgt) = true.
Proof. reflexivity. Qed.

Lemma validEntry_stub (s : SourceFile) (tgt : TargetSpec) :
  validEntry (fallbackFile s tgt) = true.
Proof. reflexivity. Qed.

Lemma validEntry_exportable (f : json) :
  validEntry f = true -> exportable f.
Proof.
  unfold validEntry, exportable.
  destruct (negb (Truthy.truthy (Some f))); [discriminate|].
  destruct (Json.propString "path" f) as [p|]; [|discriminate].
  destruct (Json.propString "content" f) as [c|]; [|discriminate].
  intros _. now exists p, c.
Qed.

Lemma filter_all {A : Type} (f : A -> bool) (l : list A) :
  Forall (fun x => f x = true) l -> filter f l = l.
Proof.
  induction 1 as [|x l Hx _ IH]; simpl; [reflexivity|].
  now rewrite Hx, IH.
Qed.

Lemma filter_split_count {A : Type} (f : A -> bool) (l : list A) :
  count (filter (fun x => negb (f x)) l) + count (filter f l) = count l.
Proof.
  assert (H : (length (filter (fun x => negb (f x)) l)
                + length (filter f l) = length l)%nat).
  { induction l as [|x l IH]; simpl; [reflexivity|].
    destruct (f x); simpl; lia. }
  unfold count. lia.
Qed.

Section LoopAccounts.

Variable W : World.
Variable tgt : TargetSpec.

Lemma outcomes_numbers (bs : list (list SourceFile)) :
  forall i,
    map batch (outcomesFrom W tgt i bs)
    = map (fun k => Z.of_nat k + 1) (seq i (length bs)).
Proof.
  induction bs as [|b bs IH]; intros i; simpl; [reflexivity|].
  rewrite IH. f_equal. unfold batchOutcome.
  now destruct (convertBatch W b tgt (Z.of_nat i + 1)).
Qed.

Lemma outcome_count (i : nat) (b : list SourceFile) :
  fileCount (batchOutcome W tgt i b) = count (batchOutput W tgt i b).
Proof.
  unfold batchOutcome, batchOutput.
  now destruct (convertBatch W b tgt (Z.of_nat i + 1)).
Qed.

Lemma outcomes_sum (bs : list (list SourceFile)) :
  forall i,
    sumCounts (outcomesFrom W tgt i bs)
    = count (concat (outputsFrom W tgt i bs)).
Proof.
  induction bs as [|b bs IH]; intros i; simpl; [reflexivity|].
  unfold sumCounts in *. simpl. rewrite IH, outcome_count.
  unfold count. rewrite length_app. lia.
Qed.

Lemma outcomes_shape (bs : list (list SourceFile)) :
  Forall (fun b => b <> []) bs ->
  forall i,
    Forall (fun r => fileCount r >= 1
                     /\ (status r = "success" /\ error r = None
                         \/ status r = "fallback" /\ error r <> None))
           (outcomesFrom W tgt i bs).
Proof.
  induction 1 as [|b bs Hb _ IH]; intros i; simpl; constructor; [|apply IH].
  split.
  - rewrite outcome_count.
    pose proof (batchOutput_nonempty W tgt i b Hb) as Hne.
    unfold count. destruct (batchOutput W tgt i b); [contradiction|].
    simpl length. lia.
  - unfold batchOutcome.
    destruct (convertBatch W b tgt (Z.of_nat i + 1)); simpl.
    + left. split; reflexivity.
    + right. split; [reflexivity | discriminate].
Qed.

Lemma outputs_all_fail (bs : list (list SourceFile)) :
  (forall b i, In b bs -> exists m, convertBatch W b tgt i = Throw m) ->
  forall i,
    concat (outputsFrom W tgt i bs) = createFallbackFiles (concat bs) tgt
    /\ Forall (fun r => status r = "fallback") (outcomesFrom W tgt i bs).
Proof.
  induction bs as [|b bs IH]; intros Hfail i; simpl.
  - split; [reflexivity | constructor].
  - destruct (IH (fun b' i' H => Hfail b' i' (or_intror H)) (S i))
      as [Hout Hres].
    destruct (Hfail b (Z.of_nat i + 1) (or_introl eq_refl)) as (m & Hm).
    split.
    + rewrite Hout. unfold batchOutput, createFallbackFiles.
      now rewrite Hm, map_app.
    + constructor; [|exact Hres]. unfold batchOutcome. now rewrite Hm.
Qed.

Lemma outputs_exportable (bs : list (list SourceFile)) :
  forall i, Forall (fun f => validEntry f = true)
                   (concat (outputsFrom W tgt i bs)).
Proof.
  induction bs as [|b bs IH]; intros i; simpl; [constructor|].
  apply Forall_app. split; [|apply IH].
  unfold batchOutput.
  destruct (convertBatch W b tgt (Z.of_nat i + 1)) eqn:Hc.
  - apply (convertBatch_returns_files W tgt _ _ _ Hc).
  - unfold createFallbackFiles. apply Forall_forall. intros f Hf.
    apply in_map_iff in Hf. destruct Hf as (s & <- & _).
    apply validEntry_stub.
Qed.

End LoopAccounts.

Lemma count_filter_exists (rs : list BatchResult) :
  (count (filter (fun b => String.eqb (status b) "fallback") rs) >? 0) = true
  <-> Exists (fun r => status r = "fallback") rs.
Proof.
  unfold count. induction rs as [|r rs IH]; simpl.
  - split; [discriminate | intros H; inversion H].
  - destruct (String.eqb (status r) "fallback") eqn:Hs.
    + split; [|reflexivity]. intros _. left. now apply String.eqb_eq.
    + rewrite IH. split; [now right|].
      intros H. inversion H as [? ? Hr|]; subst; [|assumption].
      apply String.eqb_neq in Hs. contradiction.
Qed.

(** The answer of a run, once the request is complete and at least one
    file is fetched. *)
Lemma run_answer (W : World) (req : Request) (tgt : TargetSpec)
      (originals : list SourceFile) :
  requestTarget req = Some tgt ->
  fetchOf W req = Ok originals ->
  originals <> [] ->
  convert W req
  = respond tgt originals
      (mkProgress (concat (outputsFrom W tgt 0 (planBatches originals)))
                  (failedFiles (runBatches W tgt 0 (planBatches originals)
                                           (mkProgress [] [] [])))
                  (outcomesFrom W tgt 0 (planBatches originals))).
Proof.
  intros Hreq Hfetch Hsome.
  rewrite (convert_valid W req tgt Hreq), Hfetch.
  destruct (count originals =? 0) eqn:Hz.
  - apply count_zero in Hz. contradiction.
  - unfold respond. now rewrite runBatches_converted, runBatches_results.
Qed.

Lemma run_inverse (W : World) (req : Request) (files : list json)
      (summary : Summary) (warnings : option Warnings) :
  convert W req = mkResponse 200 (convertedBody files summary warnings) ->
  exists tgt originals,
    requestTarget req = Some tgt /\ fetchOf W req = Ok originals
    /\ originals <> [].
Proof.
  intros Hrun.
  destruct (requestTarget req) as [tgt|] eqn:Hreq.
  2:{ pose proof (convert_invalid W req Hreq) as H400.
      rewrite Hrun in H400. discriminate. }
  rewrite (convert_valid W req tgt Hreq) in Hrun.
  destruct (fetchOf W req) as [originals|m] eqn:Hfetch; [|discriminate].
  destruct (count originals =? 0) eqn:Hz; [discriminate|].
  exists tgt, originals. repeat split.
  intros ->. discriminate.
Qed.

(** The summary accounts for every batch and every file: its results
    are numbered 1, 2, ... in the order of the batches, each counts at
    least one file and is a success without error or a fallback with
    one, their counts add up to the number of files returned, which the
    two counters split, and the warnings are present exactly when a
    result is a fallback. *)
Theorem summary_accounts_for_every_batch
        (W : World) (req : Request) (files : list json) (summary : Summary)
        (warnings : option Warnings)
        (Hrun : convert W req
                = mkResponse 200 (convertedBody files summary warnings)) :
  exists tgt originals,
    requestTarget req = Some tgt
    /\ fetchOf W req = Ok originals
    /\ targetOf summary = tgt
    /\ totalOriginalFiles summary = count originals
    /\ totalConvertedFiles summary = count files
    /\ successfullyConverted summary + fallbackFiles summary = count files
    /\ map batch (batchResultsOf summary)
       = batchNumbers (length (planBatches originals))
    /\ sumCounts (batchResultsOf summary) = count files
    /\ Forall (fun r => fileCount r >= 1
                        /\ (status r = "success" /\ error r = None
                            \/ status r = "fallback" /\ error r <> None))
              (batchResultsOf summary)
    /\ (warnings <> None
        <-> Exists (fun r => status r = "fallback") (batchResultsOf summary)).
Proof.
  destruct (run_inverse W req files summary warnings Hrun)
    as (tgt & originals & Hreq & Hfetch & Hsome).
  exists tgt, originals.
  rewrite (run_answer W req tgt originals Hreq Hfetch Hsome) in Hrun.
  unfold respond in Hrun. simpl in Hrun.
  injection Hrun as Hfiles Hsummary Hwarn.
  subst files summary. simpl.
  split; [exact Hreq|]. split; [exact Hfetch|]. split; [reflexivity|].
  split; [reflexivity|]. split; [reflexivity|].
  split; [apply filter_split_count|].
  split; [apply outcomes_numbers|].
  split; [apply outcomes_sum|].
  split.
  - apply outcomes_shape.
    apply planBatches_nonempty; [|exact Hsome].
    exact (fetchFiles_tiered _ _ _ _ _ _ Hfetch).
  - rewrite <- count_filter_exists.
    match type of Hwarn with
    | (if ?c then _ else _) = _ => destruct c
    end; subst warnings; split; intros H; congruence.
Qed.

Lemma summary_accounts_for_every_batch_witness :
  exists tgt originals,
    requestTarget Sample.request = Some tgt
    /\ fetchOf (Sample.world Sample.readable (completed Sample.invented))
               Sample.request = Ok originals.
Proof.
  destruct (summary_accounts_for_every_batch
              (Sample.world Sample.readable (completed Sample.invented))
              Sample.request _ _ _ eq_refl)
    as (tgt & originals & Hreq & Hfetch & _).
  exists tgt, originals. split; assumption.
Defined.

(** Every file of a result can be exported: it is an object whose
    [path] and [content] are strings, whether the engine or the fallback
    generator made it. *)
Theorem result_files_are_exportable
        (W : World) (req : Request) (files : list json) (summary : Summary)
        (warnings : option Warnings)
        (Hrun : convert W req
                = mkResponse 200 (convertedBody files summary warnings)) :
  files <> [] /\ Forall exportable files.
Proof.
  destruct (run_inverse W req files summary warnings Hrun)
    as (tgt & originals & Hreq & Hfetch & Hsome).
  rewrite (run_answer W req tgt originals Hreq Hfetch Hsome) in Hrun.
  unfold respond in Hrun. simpl in Hrun. injection Hrun as Hfiles _ _.
  subst files. split.
  - destruct (planBatches_nonempty originals
                (fetchFiles_tiered _ _ _ _ _ _ Hfetch) Hsome) as [Hb Hall].
    now apply outputsFrom_nonempty.
  - eapply Forall_impl; [|apply outputs_exportable].
    intros f. apply validEntry_exportable.
Qed.

Lemma result_files_are_exportable_witness :
  Forall exportable [Sample.ghostFile].
Proof.
  exact (proj2 (result_files_are_exportable
                  (Sample.world Sample.readable (completed Sample.invented))
                  Sample.request [Sample.ghostFile] _ _ eq_refl)).
Defined.

(** ** Runs in which every batch fails *)

Lemma all_fail_answer (W : World) (req : Request) (tgt : TargetSpec)
      (originals : list SourceFile) :
  requestTarget req = Some tgt ->
  fetchOf W req = Ok originals ->
  originals <> [] ->
  (forall b i, In b (planBatches originals) ->
     exists m, convertBatch W b tgt i = Throw m) ->
  exists summary warnings,
    convert W req
    = mkResponse 200 (convertedBody (createFallbackFiles originals tgt)
                                    summary (Some warnings))
    /\ totalOriginalFiles summary = count originals
    /\ totalConvertedFiles summary = count originals
    /\ successfullyConverted summary = 0
    /\ fallbackFiles summary = count originals
    /\ fallbackPaths warnings = map (fun f => Some (JStr (path f))) originals
    /\ batchResultsOf summary = outcomesFrom W tgt 0 (planBatches originals)
    /\ Forall (fun r => status r = "fallback") (batchResultsOf summary).
Proof.
  intros Hreq Hfetch Hsome Hfail.
  destruct (outputs_all_fail W tgt (planBatches originals) Hfail 0%nat)
    as [Hout Hres].
  destruct (fetched_order W _ _ _ _ originals Hfetch) as (_ & _ & Hcat).
  rewrite Hcat in Hout.
  assert (Hstubs : Forall (fun f => isFallback f = true)
                          (createFallbackFiles originals tgt)).
  { apply Forall_forall. intros f Hf. unfold createFallbackFiles in Hf.
    apply in_map_iff in Hf. destruct Hf as (s & <- & _).
    apply isFallback_stub. }
  assert (Hnone : Forall (fun f => negb (isFallback f) = false)
                         (createFallbackFiles originals tgt)).
  { eapply Forall_impl; [|exact Hstubs]. intros f Hf. simpl in Hf.
    now rewrite Hf. }
  assert (Hlen : count (createFallbackFiles originals tgt) = count originals).
  { unfold count, createFallbackFiles. now rewrite length_map. }
  assert (Hwarn : (count (filter (fun b => String.eqb (status b) "fallback")
                                 (outcomesFrom W tgt 0 (planBatches originals)))
                   >? 0) = true).
  { apply count_filter_exists.
    destruct (planBatches_nonempty originals
                (fetchFiles_tiered _ _ _ _ _ _ Hfetch) Hsome) as [Hb _].
    destruct (planBatches originals) as [|b bs]; [contradiction|].
    simpl in *. inversion Hres; subst. now left. }
  rewrite (run_answer W req tgt originals Hreq Hfetch Hsome).
  unfold respond. simpl converted. simpl batchResults.
  rewrite Hwarn, Hout, (filter_all _ _ Hstubs), (filter_none _ _ Hnone).
  do 2 eexists. split; [reflexivity|]. simpl.
  repeat split; try assumption.
  unfold createFallbackFiles. rewrite map_map. reflexivity.
Qed.




Lemma outcomes_missing_key (W : World) (tgt : TargetSpec)
      (bs : list (list SourceFile)) :
  missing (OPENROUTER_KEY W) = true ->
  forall i,
    Forall (fun r => error r
                     = Some "Missing OPENROUTER_API_KEY environment variable")
           (outcomesFrom W tgt i bs).
Proof.
  intros Hkey. induction bs as [|b bs IH]; intros i; simpl; constructor.
  - unfold batchOutcome, convertBatch. now rewrite Hkey.
  - apply IH.
Qed.

(** A missing API key does not abort the run of the later route: the
    completion service is never asked, every batch is recorded as a
    fallback with the error of the missing key, and the answer is the
    success that holds one stub per fetched file. *)
Theorem missing_key_falls_back_on_every_batch
        (W : World) (req : Request) (tgt : TargetSpec)
        (originals : list SourceFile)
        (Hkey : missing (OPENROUTER_KEY W) = true)
        (Hreq : requestTarget req = Some tgt)
        (Hfetch : fetchOf W req = Ok originals)
        (Hsome : originals <> []) :
  exists summary warnings,
    convert W req
    = mkResponse 200 (convertedBody (createFallbackFiles originals tgt)
                                    summary (Some warnings))
    /\ Forall (fun r => status r = "fallback"
                        /\ error r
                           = Some "Missing OPENROUTER_API_KEY environment variable")
              (batchResultsOf summary)
    /\ forall reply,
         convert (mkWorld (JSON_parse W) (localeCompare W) (OPENROUTER_KEY W)
                          (ghBranchSha W) (ghTree W) (ghContent W) reply) req
         = convert W req.
Proof.
  assert (Hfail : forall W', OPENROUTER_KEY W' = OPENROUTER_KEY W ->
            forall b i, In b (planBatches originals) ->
              exists m, convertBatch W' b tgt i = Throw m).
  { intros W' HW' b i _. eexists. unfold convertBatch.
    rewrite HW', Hkey. reflexivity. }
  destruct (all_fail_answer W req tgt originals Hreq Hfetch Hsome
              (Hfail W eq_refl))
    as (summary & warnings & Hrun & _ & _ & _ & _ & _ & Hres & Hall).
  exists summary, warnings. split; [exact Hrun|]. split.
  - pose proof (outcomes_missing_key W tgt (planBatches originals) Hkey 0%nat)
      as Herr.
    rewrite <- Hres in Herr.
    rewrite Forall_forall in *. intros r Hr. split; [now apply Hall | now apply Herr].
  - intros reply.
    set (W' := mkWorld (JSON_parse W) (localeCompare W) (OPENROUTER_KEY W)
                       (ghBranchSha W) (ghTree W) (ghContent W) reply).
    assert (Hfetch' : fetchOf W' req = Ok originals) by exact Hfetch.
    rewrite (run_answer W' req tgt originals Hreq Hfetch' Hsome).
    rewrite (run_answer W req tgt originals Hreq Hfetch Hsome).
    assert (Hsame : forall bs i,
              outputsFrom W' tgt i bs = outputsFrom W tgt i bs
              /\ outcomesFrom W' tgt i bs = outcomesFrom W tgt i bs
              /\ forall st,
                   failedFiles (runBatches W' tgt i bs st)
                   = failedFiles (runBatches W tgt i bs st)).
    { induction bs as [|b bs IH]; intros i; simpl.
      - repeat split.
      - destruct (IH (S i)) as (H1 & H2 & H3).
        assert (Hb : convertBatch W' b tgt (Z.of_nat i + 1)
                     = convertBatch W b tgt (Z.of_nat i + 1)).
        { unfold convertBatch. simpl. now rewrite Hkey. }
        unfold batchOutput, batchOutcome, runBatch.
        rewrite Hb, H1, H2. repeat split. intros st. now rewrite H3. }
    destruct (Hsame (planBatches originals) 0%nat) as (H1 & H2 & H3).
    now rewrite H1, H2, H3.
Qed.

Lemma missing_key_falls_back_on_every_batch_witness :
  filesOf (convert (mkWorld JsonText.parse Sample.byCodeUnits None
                            (fun _ _ _ _ => Ok (Some "4f2a9c"))
                            (fun _ _ _ _ => Ok Sample.tree)
                            (fun _ _ _ _ p => Sample.readable p)
                            (fun _ _ _ => completed Sample.invented))
                   Sample.request)
  = Some (createFallbackFiles Sample.fetchedFiles Sample.python).
Proof.
  destruct (missing_key_falls_back_on_every_batch
              (mkWorld JsonText.parse Sample.byCodeUnits None
                       (fun _ _ _ _ => Ok (Some "4f2a9c"))
                       (fun _ _ _ _ => Ok Sample.tree)
                       (fun _ _ _ _ p => Sample.readable p)
                       (fun _ _ _ => completed Sample.invented))
              Sample.request Sample.python Sample.fetchedFiles
              eq_refl eq_refl eq_refl ltac:(discriminate))
    as (summary & warnings & Hrun & _).
  now rewrite Hrun.
Defined.

(** ** The earlier route *)

Lemma simple_convert_valid (V : ConvertSimple.World) (req : Request)
      (tgt : TargetSpec) :
  requestTarget req = Some tgt ->
  ConvertSimple.convert V req
  = match simpleFetchOf V req with
    | Throw m => ConvertSimple.mkResponse 500 (ConvertSimple.errorBody m)
    | Ok originals =>
        if count originals =? 0
        then ConvertSimple.mkResponse 200
               (ConvertSimple.noFilesBody "No code files found in repository")
        else ConvertSimple.respond tgt originals
               (ConvertSimple.planBatches originals)
               (ConvertSimple.runBatches V tgt 0
                  (ConvertSimple.planBatches originals)
                  (ConvertSimple.mkProgress [] []))
    end.
Proof.
  unfold requestTarget, ConvertSimple.convert, simpleFetchOf.
  destruct (missing (token req) || missing (owner req) || missing (repo req)
            || missing (branch req)); [discriminate|].
  destruct (target req) as [t|]; [|discriminate].
  destruct (String.eqb (language t) "" || String.eqb (framework t) ""
            || String.eqb (database t) ""); [discriminate|].
  intros H. injection H as <-. reflexivity.
Qed.

Lemma simple_convert_invalid (V : ConvertSimple.World) (req : Request) :
  requestTarget req = None ->
  exists e, ConvertSimple.convert V req
            = ConvertSimple.mkResponse 400 (ConvertSimple.errorBody e).
Proof.
  unfold requestTarget, ConvertSimple.convert.
  destruct (missing (token req) || missing (owner req) || missing (repo req)
            || missing (branch req)); [now eexists|].
  destruct (target req) as [t|]; [|now eexists].
  destruct (String.eqb (language t) "" || String.eqb (framework t) ""
            || String.eqb (database t) ""); [now eexists | discriminate].
Qed.

Section SimpleLoop.

Variable V : ConvertSimple.World.
Variable tgt : TargetSpec.

Lemma simple_runBatches (bs : list (list ConvertSimple.CodeFile)) :
  forall i st,
    ConvertSimple.converted (ConvertSimple.runBatches V tgt i bs st)
    = ConvertSimple.converted st ++ simpleOutputsFrom V tgt i bs
    /\ ConvertSimple.errors (ConvertSimple.runBatches V tgt i bs st)
       = ConvertSimple.errors st ++ simpleErrorsFrom V tgt i bs.
Proof.
  induction bs as [|b bs IH]; intros i st; simpl.
  - now rewrite !app_nil_r.
  - destruct (IH (S i) (ConvertSimple.runBatch V tgt st i b)) as [Hc He].
    rewrite Hc, He. unfold ConvertSimple.runBatch, simpleOutput, simpleError.
    destruct (ConvertSimple.convertBatch V i b tgt); simpl;
      rewrite <- ?app_assoc, ?app_nil_r; split; reflexivity.
Qed.

Lemma simple_batch_ok (i : nat) (b : list ConvertSimple.CodeFile)
      (files : list json) :
  ConvertSimple.convertBatch V i b tgt = Ok files ->
  files <> [] /\ Forall (fun f => validEntry f = true) files.
Proof.
  unfold ConvertSimple.convertBatch, ConvertSimple.tryConvert.
  destruct (missing (ConvertSimple.OPENROUTER_KEY V)); [discriminate|].
  destruct (ConvertSimple.openrouter V i b tgt); try discriminate.
  destruct (match ConvertSimple.JSON_parse V aiResponse with
            | Ok parsed => Ok parsed
            | Throw _ => _
            end) as [parsed|]; [|discriminate].
  destruct (filesArray parsed) as [items|]; [|discriminate].
  destruct (Z.of_nat (length (filter validEntry items)) =? 0) eqn:Hz;
    [discriminate|].
  intros H. injection H as <-. split.
  - intros Hnil. rewrite Hnil in Hz. discriminate.
  - apply Forall_forall. intros f Hf. apply filter_In in Hf. tauto.
Qed.

Lemma simple_outputs_valid (bs : list (list ConvertSimple.CodeFile)) :
  forall i, Forall (fun f => validEntry f = true)
                   (simpleOutputsFrom V tgt i bs).
Proof.
  induction bs as [|b bs IH]; intros i; simpl; [constructor|].
  apply Forall_app. split; [|apply IH].
  unfold simpleOutput.
  destruct (ConvertSimple.convertBatch V i b tgt) eqn:Hc; [|constructor].
  apply (simple_batch_ok i b _ Hc).
Qed.

Lemma simple_errors_length (bs : list (list ConvertSimple.CodeFile)) :
  forall i, (length (simpleErrorsFrom V tgt i bs) <= length bs)%nat.
Proof.
  induction bs as [|b bs IH]; intros i; simpl; [lia|].
  rewrite length_app. specialize (IH (S i)). unfold simpleError.
  destruct (ConvertSimple.convertBatch V i b tgt); simpl; lia.
Qed.

(** When all the batches are in [errors], nothing was converted. *)
Lemma simple_all_errors (bs : list (list ConvertSimple.CodeFile)) :
  forall i,
    length (simpleErrorsFrom V tgt i bs) = length bs ->
    simpleOutputsFrom V tgt i bs = [].
Proof.
  induction bs as [|b bs IH]; intros i; simpl; [reflexivity|].
  rewrite length_app. pose proof (simple_errors_length bs (S i)) as Hle.
  unfold simpleError, simpleOutput.
  destruct (ConvertSimple.convertBatch V i b tgt); simpl; intros H.
  - lia.
  - apply IH. lia.
Qed.

(** When nothing was converted, every batch is in [errors], with its
    number and the number of its files. *)
Lemma simple_nothing_converted (bs : list (list ConvertSimple.CodeFile)) :
  forall i,
    simpleOutputsFrom V tgt i bs = [] ->
    map ConvertSimple.batch (simpleErrorsFrom V tgt i bs)
    = map (fun k => Z.of_nat k + 1) (seq i (length bs))
    /\ map ConvertSimple.fileCount (simpleErrorsFrom V tgt i bs)
       = map count bs
    /\ Forall (fun d =>
                 ConvertSimple.error d
                 = "Missing OPENROUTER_API_KEY environment variable"
                 \/ exists m,
                      ConvertSimple.error d
                      = ("Failed to convert files: " ++ m)%string)
              (simpleErrorsFrom V tgt i bs).
Proof.
  induction bs as [|b bs IH]; intros i; simpl.
  - intros _. repeat split. constructor.
  - intros Hnil. apply app_eq_nil in Hnil. destruct Hnil as [Hb Hrest].
    destruct (IH (S i) Hrest) as (Hn & Hc & He).
    unfold simpleOutput in Hb. unfold simpleError.
    destruct (ConvertSimple.convertBatch V i b tgt) as [files|m] eqn:Hcb.
    + destruct (simple_batch_ok i b files Hcb) as [Hne _]. contradiction.
    + simpl. rewrite Hn, Hc. repeat split.
      constructor; [|exact He]. simpl.
      unfold ConvertSimple.convertBatch in Hcb.
      destruct (missing (ConvertSimple.OPENROUTER_KEY V)).
      * left. now injection Hcb.
      * right. destruct (ConvertSimple.tryConvert V i b tgt);
          [discriminate|]. injection Hcb as <-. now eexists.
Qed.

Lemma simple_missing_key (bs : list (list ConvertSimple.CodeFile)) :
  missing (ConvertSimple.OPENROUTER_KEY V) = true ->
  forall i,
    simpleOutputsFrom V tgt i bs = []
    /\ length (simpleErrorsFrom V tgt i bs) = length bs
    /\ Forall (fun d =>
                 ConvertSimple.error d
                 = "Missing OPENROUTER_API_KEY environment variable")
              (simpleErrorsFrom V tgt i bs).
Proof.
  intros Hkey. induction bs as [|b bs IH]; intros i; simpl.
  - repeat split. constructor.
  - destruct (IH (S i)) as (Ho & Hl & He).
    unfold simpleOutput, simpleError, ConvertSimple.convertBatch.
    rewrite Hkey. simpl. rewrite Ho, Hl. repeat split.
    constructor; [reflexivity | exact He].
Qed.

End SimpleLoop.

Lemma simple_plan_nonempty (originals : list ConvertSimple.CodeFile) :
  originals <> [] -> ConvertSimple.planBatches originals <> [].
Proof.
  intros Hsome Hnil.
  pose proof (greedy_concat _ ConvertSimple.contentLength
                ConvertSimple.sizeLimit originals) as Hcat.
  unfold ConvertSimple.planBatches in Hnil. rewrite Hnil in Hcat.
  simpl in Hcat. congruence.
Qed.

Lemma simple_run_inverse (V : ConvertSimple.World) (req : Request)
      (s : Z) (b : ConvertSimple.Body) :
  ConvertSimple.convert V req = ConvertSimple.mkResponse s b ->
  (forall e, b <> ConvertSimple.errorBody e) ->
  (forall m, b <> ConvertSimple.noFilesBody m) ->
  exists tgt originals,
    requestTarget req = Some tgt
    /\ simpleFetchOf V req = Ok originals
    /\ originals <> []
    /\ ConvertSimple.mkResponse s b
       = ConvertSimple.respond tgt originals
           (ConvertSimple.planBatches originals)
           (ConvertSimple.mkProgress
              (simpleOutputsFrom V tgt 0 (ConvertSimple.planBatches originals))
              (simpleErrorsFrom V tgt 0 (ConvertSimple.planBatches originals))).
Proof.
  intros Hrun Herr Hnone.
  destruct (requestTarget req) as [tgt|] eqn:Hreq.
  2:{ destruct (simple_convert_invalid V req Hreq) as (e & He).
      rewrite He in Hrun. injection Hrun as _ <-. now contradiction (Herr e). }
  rewrite (simple_convert_valid V req tgt Hreq) in Hrun.
  destruct (simpleFetchOf V req) as [originals|m] eqn:Hfetch.
  2:{ injection Hrun as _ <-. now contradiction (Herr m). }
  destruct (count originals =? 0) eqn:Hz.
  { injection Hrun as _ <-. now contradiction (Hnone "No code files found in repository"). }
  exists tgt, originals. repeat split.
  - intros ->. discriminate.
  - rewrite <- Hrun.
    destruct (simple_runBatches V tgt (ConvertSimple.planBatches originals)
                0%nat (ConvertSimple.mkProgress [] [])) as [Hc He].
    simpl in Hc, He.
    destruct (ConvertSimple.runBatches V tgt 0
                (ConvertSimple.planBatches originals)
                (ConvertSimple.mkProgress [] [])) as [conv errs].
    simpl in Hc, He. now subst.
Qed.

(** A success of the earlier route holds at least one file, each an
    object with string [path] and [content]; at least one batch
    succeeded, and the warnings are present exactly when a batch failed,
    listing as many errors as batches failed. *)
Theorem simple_success_accounts
        (V : ConvertSimple.World) (req : Request) (files : list json)
        (stats : ConvertSimple.Stats)
        (warnings : option (string * list ConvertSimple.BatchError))
        (Hrun : ConvertSimple.convert V req
                = ConvertSimple.mkResponse 200
                    (ConvertSimple.convertedBody files stats warnings)) :
  files <> []
  /\ Forall exportable files
  /\ ConvertSimple.convertedFiles stats = count files
  /\ 1 <= ConvertSimple.successfulBatches stats
  /\ ConvertSimple.successfulBatches stats <= ConvertSimple.batchCount stats
  /\ (warnings = None
      <-> ConvertSimple.successfulBatches stats = ConvertSimple.batchCount stats)
  /\ (forall msg errs, warnings = Some (msg, errs) ->
        count errs = ConvertSimple.batchCount stats
                     - ConvertSimple.successfulBatches stats).
Proof.
  destruct (simple_run_inverse V req _ _ Hrun)
    as (tgt & originals & _ & _ & _ & Hresp); try discriminate.
  unfold ConvertSimple.respond in Hresp. simpl in Hresp.
  set (bs := ConvertSimple.planBatches originals) in *.
  set (outs := simpleOutputsFrom V tgt 0 bs) in *.
  set (errs := simpleErrorsFrom V tgt 0 bs) in *.
  destruct (count outs =? 0) eqn:Hz; [discriminate|].
  injection Hresp as Hfiles Hstats Hwarn. subst files stats. simpl.
  assert (Hne : outs <> []) by (intros E; rewrite E in Hz; discriminate).
  pose proof (simple_errors_length V tgt bs 0%nat) as Hle. fold errs in Hle.
  assert (Hlt : (length errs < length bs)%nat).
  { destruct (Nat.eq_dec (length errs) (length bs)) as [E|E]; [|lia].
    exfalso. apply Hne. now apply simple_all_errors. }
  unfold count in *.
  split; [exact Hne|]. split.
  - eapply Forall_impl; [|apply simple_outputs_valid].
    intros f. apply validEntry_exportable.
  - split; [reflexivity|]. split; [lia|]. split; [lia|].
    destruct (Z.of_nat (length errs) >? 0) eqn:Hw; subst warnings.
    + apply Z.gtb_lt in Hw. split.
      * split; [discriminate | lia].
      * intros msg e H. injection H as _ <-. lia.
    + rewrite Z.gtb_ltb in Hw. apply Z.ltb_ge in Hw. split.
      * split; [lia | reflexivity].
      * intros msg e H. discriminate.
Qed.

Lemma simple_success_accounts_witness :
  Forall exportable [Sample.ghostFile].
Proof.
  exact (proj1 (proj2 (simple_success_accounts
                  (SimpleSample.world (Some "sk-or-key")
                                      (completed Sample.invented))
                  Sample.request [Sample.ghostFile] _ _ eq_refl))).
Defined.

(** When the earlier route answers that the conversion failed for all
    batches, [details] lists every batch of the plan, with its number
    and the number of its files; an error thrown inside the engine is
    prefixed, that of the missing key is not. *)
Theorem simple_failure_lists_every_batch
        (V : ConvertSimple.World) (req : Request) (e : string)
        (details : list ConvertSimple.BatchError) (msg : string)
        (Hrun : ConvertSimple.convert V req
                = ConvertSimple.mkResponse 500
                    (ConvertSimple.failedBody e details msg)) :
  exists tgt originals,
    requestTarget req = Some tgt
    /\ simpleFetchOf V req = Ok originals
    /\ originals <> []
    /\ e = "Conversion failed for all batches"
    /\ map ConvertSimple.batch details
       = batchNumbers (length (ConvertSimple.planBatches originals))
    /\ map ConvertSimple.fileCount details
       = map count (ConvertSimple.planBatches originals)
    /\ Forall (fun d =>
                 ConvertSimple.error d
                 = "Missing OPENROUTER_API_KEY environment variable"
                 \/ exists m,
                      ConvertSimple.error d
                      = ("Failed to convert files: " ++ m)%string)
              details.
Proof.
  destruct (simple_run_inverse V req _ _ Hrun)
    as (tgt & originals & Hreq & Hfetch & Hsome & Hresp); try discriminate.
  exists tgt, originals.
  unfold ConvertSimple.respond in Hresp. simpl in Hresp.
  destruct (count (simpleOutputsFrom V tgt 0
                     (ConvertSimple.planBatches originals)) =? 0) eqn:Hz;
    [|discriminate].
  injection Hresp as -> -> _.
  apply count_zero in Hz.
  destruct (simple_nothing_converted V tgt _ 0%nat Hz) as (Hn & Hc & He).
  repeat split; assumption.
Qed.

Lemma simple_failure_lists_every_batch_witness :
  exists tgt originals,
    requestTarget Sample.request = Some tgt
    /\ simpleFetchOf (SimpleSample.world (Some "sk-or-key")
                                         (completed Sample.refusal))
                     Sample.request = Ok originals.
Proof.
  destruct (simple_failure_lists_every_batch
              (SimpleSample.world (Some "sk-or-key")
                                  (completed Sample.refusal))
              Sample.request _ _ _ eq_refl)
    as (tgt & originals & Hreq & Hfetch & _).
  exists tgt, originals. split; assumption.
Defined.

(** In the earlier route a missing API key fails the whole run: the
    answer is the 500 of a conversion that failed for all batches, and
    every batch of the plan is listed with the error of the missing
    key. *)
Theorem simple_missing_key_fails_the_run
        (V : ConvertSimple.World) (req : Request) (tgt : TargetSpec)
        (originals : list ConvertSimple.CodeFile)
        (Hkey : missing (ConvertSimple.OPENROUTER_KEY V) = true)
        (Hreq : requestTarget req = Some tgt)
        (Hfetch : simpleFetchOf V req = Ok originals)
        (Hsome : originals <> []) :
  exists details msg,
    ConvertSimple.convert V req
    = ConvertSimple.mkResponse 500
        (ConvertSimple.failedBody "Conversion failed for all batches"
                                  details msg)
    /\ length details = length (ConvertSimple.planBatches originals)
    /\ Forall (fun d =>
                 ConvertSimple.error d
                 = "Missing OPENROUTER_API_KEY environment variable")
              details.
Proof.
  rewrite (simple_convert_valid V req tgt Hreq), Hfetch.
  destruct (count originals =? 0) eqn:Hz.
  { apply count_zero in Hz. contradiction. }
  destruct (simple_runBatches V tgt (ConvertSimple.planBatches originals)
              0%nat (ConvertSimple.mkProgress [] [])) as [Hc He].
  destruct (simple_missing_key V tgt (ConvertSimple.planBatches originals)
              Hkey 0%nat) as (Ho & Hl & Hall).
  simpl in Hc, He. rewrite Ho in Hc.
  unfold ConvertSimple.respond. rewrite Hc, He. simpl.
  do 2 eexists. split; [reflexivity|]. split; assumption.
Qed.

Lemma simple_missing_key_fails_the_run_witness :
  ConvertSimple.statusCode
    (ConvertSimple.convert (SimpleSample.world None (completed Sample.invented))
                           Sample.request) = 500.
Proof.
  destruct (simple_missing_key_fails_the_run
              (SimpleSample.world None (completed Sample.invented))
              Sample.request Sample.python SimpleSample.fetchedFiles
              eq_refl eq_refl eq_refl ltac:(discriminate))
    as (details & msg & Hrun & _).
  now rewrite Hrun.
Defined.

(** ** The path of a stub *)






(** ** What the recovery pass extracts *)

Lemma fromFirstOpen_shape (s r : string) :
  fromFirstOpen s = Some r ->
  exists pre rest,
    s = (pre ++ r)%string /\ r = String "{" rest /\ hasOpen pre = false.
Proof.
  revert r. induction s as [|c s IH]; simpl; intros r H; [discriminate|].
  destruct (isOpen c) eqn:Hc.
  - injection H as <-. apply Ascii.eqb_eq in Hc. subst c.
    exists EmptyString, s. repeat split.
  - destruct (IH r H) as (pre & rest & Hs & Hr & Hpre).
    exists (String c pre), rest. simpl. rewrite Hc, Hpre.
    repeat split; [now rewrite Hs | exact Hr].
Qed.

Lemma uptoLastClose_shape (s t : string) :
  uptoLastClose s = Some t ->
  exists mid post,
    s = (t ++ post)%string /\ t = (mid ++ "}")%string
    /\ hasClose post = false.
Proof.
  revert t. induction s as [|c s IH]; simpl; intros t H; [discriminate|].
  destruct (uptoLastClose s) as [u|] eqn:Hu.
  - injection H as <-. destruct (IH u eq_refl) as (mid & post & Hs & Ht & Hp).
    exists (String c mid), post. simpl.
    repeat split; [now rewrite Hs | now rewrite Ht | exact Hp].
  - destruct (isClose c) eqn:Hc; [|discriminate]. injection H as <-.
    apply Ascii.eqb_eq in Hc. subst c.
    exists EmptyString, s. repeat split. now apply uptoLastClose_none.
Qed.

(** The text the recovery pass hands to [JSON.parse] is a part of the
    reply that starts with an opening and ends with a closing brace;
    no opening brace comes before it in the reply and no closing brace
    after it. *)
Theorem recovered_text_runs_from_brace_to_brace
        (aiResponse text : string)
        (Hmatch : jsonMatch aiResponse = Some text) :
  exists pre mid post,
    aiResponse = (pre ++ text ++ post)%string
    /\ text = String "{" (mid ++ "}")
    /\ hasOpen pre = false
    /\ hasClose post = false.
Proof.
  unfold jsonMatch in Hmatch.
  destruct (fromFirstOpen aiResponse) as [[|c rest]|] eqn:Hf;
    try discriminate.
  destruct (uptoLastClose rest) as [t|] eqn:Hu; [|discriminate].
  injection Hmatch as <-.
  destruct (fromFirstOpen_shape _ _ Hf) as (pre & rest' & Hs & Hr & Hpre).
  injection Hr as -> <-.
  destruct (uptoLastClose_shape _ _ Hu) as (mid & post & Hrest & Ht & Hpost).
  exists pre, mid, post. repeat split; try assumption.
  - rewrite Hs. simpl. now rewrite Hrest at 1.
  - now rewrite Ht.
Qed.

Lemma recovered_text_runs_from_brace_to_brace_witness :
  exists pre mid post,
    Sample.chatty = (pre ++ (Sample.invented ++ " Every }") ++ post)%string
    /\ (Sample.invented ++ " Every }")%string = String "{" (mid ++ "}")
    /\ hasOpen pre = false
    /\ hasClose post = false.
Proof.
  exact (recovered_text_runs_from_brace_to_brace
           Sample.chatty (Sample.invented ++ " Every }") eq_refl).
Defined.

(** ** The fetcher of the earlier route *)

(** The earlier route reads at most 50 files, the first 50 code blobs of
    the tree in the order of the listing; it sorts nothing, skips no
    directory and has no ceiling on the size of a file, and the windows
    of five requests are not seen in the result. *)
Theorem simple_fetch_follows_the_tree
        (V : ConvertSimple.World) (token owner repo branch sha : string)
        (tree : list TreeEntry)
        (Hsha : ConvertSimple.ghBranchSha V token owner repo branch
                = Ok (Some sha))
        (Hne : sha <> EmptyString)
        (Htree : ConvertSimple.ghTree V token owner repo sha = Ok tree) :
  let files :=
    firstn 50 (filter (fun n => String.eqb (entryType n) "blob"
                                && ConvertSimple.isCodeFile (entryPath n))
                      tree) in
  ConvertSimple.fetchFiles V token owner repo branch
  = Ok (ConvertSimple.fetched
          (map (ConvertSimple.fetchOne V token owner repo branch) files))
  /\ (length (ConvertSimple.fetched
                (map (ConvertSimple.fetchOne V token owner repo branch) files))
      <= 50)%nat
  /\ forall n decoded,
       In n files ->
       ConvertSimple.ghContent V token owner repo branch (entryPath n)
       = Ok decoded ->
       ConvertSimple.fetchOne V token owner repo branch n
       = Some (ConvertSimple.mkCodeFile (entryPath n) decoded).
Proof.
  cbv zeta.
  remember (firstn 50 (filter _ tree)) as files eqn:Hfiles.
  split; [|split].
  - unfold ConvertSimple.fetchFiles. rewrite Hsha.
    change (missing (Some sha)) with (String.eqb sha "").
    apply String.eqb_neq in Hne. rewrite Hne.
    cbv beta iota. rewrite Htree, <- Hfiles.
    rewrite <- (windows_concat 5 files) at 2 by lia.
    f_equal. generalize (windows 5 files).
    induction l as [|w l IH]; simpl.
    + reflexivity.
    + rewrite map_app, IH.
      generalize (map (ConvertSimple.fetchOne V token owner repo branch) w).
      induction l0 as [|[f|] l0 IH0]; simpl; [reflexivity|..].
      * now rewrite IH0.
      * exact IH0.
  - eapply Nat.le_trans.
    + apply (fetched_length ConvertSimple.fetched); reflexivity.
    + rewrite length_map, Hfiles, length_firstn.
      apply Nat.le_min_l.
  - intros n decoded _ Hc. unfold ConvertSimple.fetchOne. now rewrite Hc.
Qed.

Lemma simple_fetch_follows_the_tree_witness :
  simpleFetchOf (SimpleSample.world (Some "sk-or-key")
                                    (completed Sample.refusal))
                Sample.request
  = Ok SimpleSample.fetchedFiles.
Proof.
  exact (eq_trans
           (proj1 (simple_fetch_follows_the_tree
                     (SimpleSample.world (Some "sk-or-key")
                                         (completed Sample.refusal))
                     "gho_token" "acme" "shop" "main" "4f2a9c" Sample.tree
                     eq_refl ltac:(discriminate) eq_refl))
           eq_refl).
Defined.
